(** * Text2SQL validator: the SQL safety gate and schema validation

    A shallow embedding of [Text2SQLSystem.check_unsafe_query] and
    [Text2SQLSystem.validate_sql] of [streamlit_app.py], and of the
    steps around them: [load_schema], [preprocess_query],
    [create_schema_context], [generate_sql_with_gemini] and
    [process_query].

    Python [str] values are modelled by [string]; the case mappings and the
    regular-expression word class of [Py] are those Python applies to
    ASCII text.  Beyond the ASCII range Python follows the Unicode
    database: the safety gate is modelled on any text in [Unicode], with
    [str.upper] and the word class as parameters, and is there shown to
    be the function of [Py] on ASCII text. *)

From Stdlib Require Import Ascii String NArith Bool.
From stdpp Require Import gmap strings list sorting.

(** ** Python built-ins on [str] *)

Module Py.

Definition in_range (lo hi c : ascii) : bool :=
  (N_of_ascii lo <=? N_of_ascii c)%N && (N_of_ascii c <=? N_of_ascii hi)%N.

Definition is_upper (c : ascii) : bool := in_range "A" "Z" c.
Definition is_lower (c : ascii) : bool := in_range "a" "z" c.
Definition is_digit (c : ascii) : bool := in_range "0" "9" c.

(** The class [\w] of the [re] module, on the ASCII range. *)
Definition is_word (c : ascii) : bool :=
  is_upper c || is_lower c || is_digit c || Ascii.eqb c "_".

Definition upper_char (c : ascii) : ascii :=
  if is_lower c then ascii_of_N (N_of_ascii c - 32) else c.

Definition lower_char (c : ascii) : ascii :=
  if is_upper c then ascii_of_N (N_of_ascii c + 32) else c.

Fixpoint map_str (f : ascii → ascii) (s : string) : string :=
  match s with
  | EmptyString => EmptyString
  | String c s' => String (f c) (map_str f s')
  end.

(** [s.upper()] and [s.lower()], on ASCII text. *)
Definition upper (s : string) : string := map_str upper_char s.
Definition lower (s : string) : string := map_str lower_char s.

(** [c in s] for a one-character [c]. *)
Fixpoint contains (c : ascii) (s : string) : bool :=
  match s with
  | EmptyString => false
  | String d s' => Ascii.eqb d c || contains c s'
  end.

(** [s.split(c, 1)]: at most one split, at the first occurrence of [c]. *)
Fixpoint split1 (c : ascii) (s : string) : list string :=
  match s with
  | EmptyString => [EmptyString]
  | String d s' =>
      if Ascii.eqb d c then [EmptyString; s']
      else match split1 c s' with
           | h :: t => String d h :: t
           | [] => []
           end
  end.

(** [s.split(c)[0]]: the text before the first [c]. *)
Fixpoint split_head (c : ascii) (s : string) : string :=
  match s with
  | EmptyString => EmptyString
  | String d s' => if Ascii.eqb d c then EmptyString else String d (split_head c s')
  end.

(** [a, b = l]: unpacking succeeds on exactly two items. *)
Definition unpack2 (l : list string) : option (string * string) :=
  match l with
  | [a; b] => Some (a, b)
  | _ => None
  end.

(** [sep.join(l)]. *)
Fixpoint join (sep : string) (l : list string) : string :=
  match l with
  | [] => EmptyString
  | [x] => x
  | x :: l' => x +:+ sep +:+ join sep l'
  end.

(** [sorted(l)] on strings: code-point order. *)
Definition sorted (l : list string) : list string := merge_sort String.le l.

(** *** [re.search] for a pattern [\b kw \b] *)

Definition head_char (s : string) : option ascii :=
  match s with
  | EmptyString => None
  | String c _ => Some c
  end.

(** The last character of [s], or [prev] (the character before [s]) when
    [s] is empty. *)
Fixpoint last_char (prev : option ascii) (s : string) : option ascii :=
  match s with
  | EmptyString => prev
  | String c s' => last_char (Some c) s'
  end.

Definition is_word_at (c : option ascii) : bool := from_option is_word false c.

(** [\b] between two neighbouring characters; the outside of the text
    counts as a non-word character. *)
Definition word_boundary (before after : option ascii) : bool :=
  xorb (is_word_at before) (is_word_at after).

(** The literal [kw] at the start of [s]: what follows it. *)
Fixpoint strip_prefix (kw s : string) : option string :=
  match kw, s with
  | EmptyString, _ => Some s
  | String k kw', String c s' => if Ascii.eqb k c then strip_prefix kw' s' else None
  | String _ _, EmptyString => None
  end.

(** The pattern matched at the current position; [prev] is the character
    before it. *)
Definition match_word_here (prev : option ascii) (kw s : string) : bool :=
  word_boundary prev (head_char s) &&
  match strip_prefix kw s with
  | Some rest => word_boundary (last_char prev kw) (head_char rest)
  | None => false
  end.

(** [re.search(r'\b' + kw + r'\b', s)] is not [None]: the pattern is tried
    at every position, left to right. *)
Fixpoint search_word_from (prev : option ascii) (kw s : string) : bool :=
  match_word_here prev kw s ||
  match s with
  | EmptyString => false
  | String c s' => search_word_from (Some c) kw s'
  end.

Definition search_word (kw s : string) : bool := search_word_from None kw s.

End Py.

(** ** The safety gate *)

Definition unsafe_keywords : list string :=
  ["DELETE"; "DROP"; "TRUNCATE"; "ALTER"; "CREATE"; "INSERT"; "UPDATE"].

Definition unsafe_message (keyword : string) : string :=
  "DML operations like " +:+ keyword +:+
  " are not supported. Only SELECT queries are allowed.".

(** [Text2SQLSystem.check_unsafe_query] on ASCII text: the loop returns
    at the first keyword of the list that matches.
    [Unicode.check_unsafe_query] is the function on any text. *)
Definition check_unsafe_query (query : string) : bool * string :=
  let query_upper := Py.upper query in
  match List.find (λ keyword, Py.search_word keyword query_upper) unsafe_keywords with
  | Some keyword => (false, unsafe_message keyword)
  | None => (true, "Safe query")
  end.

(** ** The tokenizer's interface

    [sqlparse] is a third-party library; the validator sees it through
    [sqlparse.parse], [Statement.get_type], [Statement.flatten] and the
    [ttype] and [value] of the leaf tokens. *)

Module Sqlparse.

(** A token type is a path below the root type, as in [sqlparse.tokens]:
    [Name], [Keyword], [Keyword.DML], ...; the types are singletons, so
    the test [a is b] is equality of paths. *)
Definition TokenType := list string.

Definition Name : TokenType := ["Name"].
Definition Keyword : TokenType := ["Keyword"].
Definition DML : TokenType := ["Keyword"; "DML"].
Definition DDL : TokenType := ["Keyword"; "DDL"].
Definition Punctuation : TokenType := ["Punctuation"].
Definition Whitespace : TokenType := ["Text"; "Whitespace"].
Definition Newline : TokenType := ["Text"; "Whitespace"; "Newline"].
Definition Wildcard : TokenType := ["Wildcard"].

Record Token := mkToken { ttype : TokenType; value : string }.

(** A parsed statement: what [get_type()] answers and the leaf tokens
    that [flatten()] yields, in order. *)
Record Statement := mkStatement { get_type : string; flatten : list Token }.

End Sqlparse.

Import Sqlparse.

(** ** Results of a call that may raise

    [Raise e] carries [str(e)] of an exception derived from [Exception]. *)

Inductive outcome (A : Type) : Type :=
  | Return (a : A)
  | Raise (e : string).

Arguments Return {A} a.
Arguments Raise {A} e.

Global Instance outcome_bind : MBind outcome := λ A B k m,
  match m with
  | Return a => k a
  | Raise e => Raise e
  end.

(** [try: body except Exception as e: handler(str(e))]. *)
Definition try_except {A} (body : outcome A) (handler : string → outcome A) : outcome A :=
  match body with
  | Return a => Return a
  | Raise e => handler e
  end.

(** ** The schema, as loaded from the JSON document *)

Record Table := mkTable {
  table_name : string;
  description : string;
  columns : list (string * string)   (* column name, description; in document order *)
}.

(** [self.schema['tables']]; [self.schema] is [None] when loading failed. *)
Definition schema_tables (schema : option (list Table)) : outcome (list Table) :=
  match schema with
  | Some tables => Return tables
  | None => Raise "'NoneType' object is not subscriptable"
  end.

(** [next((t for t in tables if t['table_name'] == name), None)]. *)
Definition find_table (tables : list Table) (name : string) : option Table :=
  List.find (λ t, String.eqb (table_name t) name) tables.

(** ** The token walk of [validate_sql] *)

Record Refs := mkRefs {
  tables_in_query : gset string;
  columns_in_query : gset (string * string);
  current_token : option Token
}.

Definition no_refs : Refs := mkRefs ∅ ∅ None.

(** [current_token and current_token.value.upper() in names]. *)
Definition current_in (names : list string) (current : option Token) : bool :=
  match current with
  | Some t => bool_decide (Py.upper (value t) ∈ names)
  | None => false
  end.

(** [table_name, col_name = v.lower().split('.', 1)], under the guard
    ['.' in v]. *)
Definition qualified (v : string) : option (string * string) :=
  if Py.contains "." v then Py.unpack2 (Py.split1 "." (Py.lower v)) else None.

Definition add_column (v : string) (cols : gset (string * string)) : gset (string * string) :=
  match qualified v with
  | Some p => {[ p ]} ∪ cols
  | None => cols
  end.

(** One iteration of the loop over [statement.flatten()]. *)
Definition walk_step (st : Refs) (token : Token) : Refs :=
  if decide (ttype token = Name) then
    let after_from := current_in ["FROM"; "JOIN"] (current_token st) in
    let tables :=
      if after_from then {[ Py.lower (value token) ]} ∪ tables_in_query st
      else tables_in_query st in
    let cols :=
      if after_from then columns_in_query st
      else if current_in ["SELECT"] (current_token st)
           then add_column (value token) (columns_in_query st)
           else columns_in_query st in
    mkRefs tables (add_column (value token) cols) (Some token)
  else if decide (ttype token = Keyword) then
    mkRefs (tables_in_query st) (columns_in_query st) (Some token)
  else st.

Definition walk (tokens : list Token) : Refs := foldl walk_step no_refs tokens.

(** ** Schema checks and messages *)

Definition valid_table_names (tables : list Table) : gset string :=
  list_to_set (table_name <$> tables).

Definition valid_cols (t : Table) : gset string := list_to_set (fst <$> columns t).

Definition msg_invalid_syntax : string := "Unsupported Query: Invalid SQL syntax".

Definition msg_only_select : string :=
  "Unsupported Query: Only SELECT queries are supported. DML operations (INSERT, UPDATE, DELETE) are not allowed.".

Definition msg_invalid_tables (invalid valid_sorted : list string) : string :=
  "Unsupported Query: Table(s) '" +:+ Py.join ", " invalid +:+
  "' do not exist in the database schema. Available tables: " +:+
  Py.join ", " valid_sorted.

Definition msg_invalid_columns (invalid info : list string) : string :=
  "Unsupported Query: Column(s) '" +:+ Py.join ", " invalid +:+
  "' do not exist in the schema. Available columns: " +:+ Py.join "; " info.

Definition msg_unsafe (safety_msg : string) : string :=
  "Unsupported Query: " +:+ safety_msg.

Definition msg_valid : string := "Valid SQL query".

Definition msg_validation_error (e : string) : string :=
  "Unsupported Query: SQL validation error - " +:+ e.

(** The body of the loop that fills [invalid_columns]: the entry appended
    for one pair, if any. *)
Definition invalid_column (tables : list Table) (valid_tables : gset string)
    (p : string * string) : option string :=
  let '(tname, col_name) := p in
  if decide (tname ∈ valid_tables) then
    match find_table tables tname with
    | Some table_info =>
        if decide (col_name ∈ valid_cols table_info) then None
        else Some (tname +:+ "." +:+ col_name)
    | None => None
    end
  else None.

(** The body of the loop that fills [table_columns_info]. *)
Definition table_columns_entry (tables : list Table) (invalid_col : string) : option string :=
  let tname := Py.split_head "." invalid_col in
  match find_table tables tname with
  | Some table_info =>
      Some (tname +:+ " table: " +:+ Py.join ", " (fst <$> columns table_info))
  | None => None
  end.

Section Validator.

(** Python iterates a [set] in hash-table order; for [str] keys that order
    depends on the interpreter's hash seed, drawn at start-up. *)
Variable iter_names : gset string → list string.
Variable iter_pairs : gset (string * string) → list (string * string).

(** [sqlparse.parse]. *)
Variable parse : string → outcome (list Statement).

(** [self.schema]. *)
Variable schema : option (list Table).

(** The [try] block of [validate_sql]. *)
Definition validate_sql_body (sql_query : string) : outcome (bool * string) :=
  parsed ← parse sql_query;
  match parsed with
  | [] => Return (false, msg_invalid_syntax)
  | statement :: _ =>
      if negb (String.eqb (get_type statement) "SELECT") then
        Return (false, msg_only_select)
      else
        let refs := walk (flatten statement) in
        tables ← schema_tables schema;
        let valid_tables := valid_table_names tables in
        let invalid_tables := tables_in_query refs ∖ valid_tables in
        if negb (bool_decide (invalid_tables = ∅)) then
          Return (false, msg_invalid_tables (iter_names invalid_tables)
                                            (Py.sorted (iter_names valid_tables)))
        else
          let invalid_columns :=
            omap (invalid_column tables valid_tables) (iter_pairs (columns_in_query refs)) in
          match invalid_columns with
          | _ :: _ =>
              let table_columns_info := omap (table_columns_entry tables) invalid_columns in
              Return (false, msg_invalid_columns invalid_columns table_columns_info)
          | [] =>
              let '(is_safe, safety_msg) := check_unsafe_query sql_query in
              if negb is_safe then Return (false, msg_unsafe safety_msg)
              else Return (true, msg_valid)
          end
  end.

(** [Text2SQLSystem.validate_sql]. *)
Definition validate_sql (sql_query : string) : outcome (bool * string) :=
  try_except (validate_sql_body sql_query)
             (λ e, Return (false, msg_validation_error e)).

End Validator.

(** ** A model of the tokenizer

    The rules of [sqlparse]'s lexer ([SQL_REGEX], tried in this order at
    each position, case-insensitively), the keyword lookup, the statement
    splitter and [get_type], for ASCII statements written with letters,
    digits, [_], blanks, quotes and the characters [* . , ; ( ) = < > ! + - / % & |].
    The keyword table holds the keywords that the statements of this file
    use; [sqlparse] reads a word outside its table as a [Name].  Not
    modelled: placeholders and the characters [$ ? : \ @ # [ ] ~ ^],
    [WITH] statements, and [BEGIN]/[DECLARE] blocks in the splitter. *)

Module SqlparseModel.

Definition Error : TokenType := ["Error"].
Definition Comment : TokenType := ["Comment"; "Single"].
Definition Multiline : TokenType := ["Comment"; "Multiline"].
Definition Integer : TokenType := ["Literal"; "Number"; "Integer"].
Definition Float : TokenType := ["Literal"; "Number"; "Float"].
Definition Hexadecimal : TokenType := ["Literal"; "Number"; "Hexadecimal"].
Definition Single : TokenType := ["Literal"; "String"; "Single"].
Definition Symbol : TokenType := ["Literal"; "String"; "Symbol"].
Definition Comparison : TokenType := ["Operator"; "Comparison"].
Definition Operator : TokenType := ["Operator"].
Definition Order : TokenType := ["Keyword"; "Order"].
Definition Builtin : TokenType := ["Name"; "Builtin"].

Definition is_letter (c : ascii) : bool := Py.is_upper c || Py.is_lower c.
Definition is_name_start (c : ascii) : bool := is_letter c || Ascii.eqb c "_".
Definition is_hex (c : ascii) : bool :=
  Py.is_digit c || Py.in_range "A" "F" c || Py.in_range "a" "f" c.
Definition is_char (d c : ascii) : bool := Ascii.eqb c d.
Definition quote : ascii := ascii_of_nat 39.
Definition dquote : ascii := ascii_of_nat 34.
Definition backtick : ascii := ascii_of_nat 96.
Definition backslash : ascii := ascii_of_nat 92.
Definition cr : ascii := ascii_of_nat 13.
Definition lf : ascii := ascii_of_nat 10.

(** The length of the longest prefix of [s] whose characters satisfy [p]. *)
Fixpoint span (p : ascii → bool) (s : string) : nat :=
  match s with
  | String c s' => if p c then S (span p s') else 0
  | EmptyString => 0
  end.

Fixpoint take (n : nat) (s : string) : string :=
  match n, s with
  | S n', String c s' => String c (take n' s')
  | _, _ => EmptyString
  end.

Fixpoint drop (n : nat) (s : string) : string :=
  match n, s with
  | S n', String _ s' => drop n' s'
  | _, _ => s
  end.

(** The next character satisfies [p]; false at the end of the text. *)
Definition next_is (p : ascii → bool) (s : string) : bool :=
  match s with
  | String c _ => p c
  | EmptyString => false
  end.

(** The run of word characters at the start of [s], uppercased. *)
Definition word (s : string) : string := Py.upper (take (span Py.is_word s) s).

(** A rule answers the length of its match at the start of [s]; [prev] is
    the character before [s]. *)
Definition rule := option ascii → string → option nat.

Definition positive_length (n : nat) : option nat :=
  match n with 0 => None | S _ => Some n end.

(** [--.*?(\r\n|\r|\n|$)] *)
Definition comment_single : rule := λ _ s,
  match s with
  | String "-" (String "-" s') =>
      let n := span (λ c, negb (Ascii.eqb c cr || Ascii.eqb c lf)) s' in
      match drop n s' with
      | String c1 (String c2 _) =>
          if Ascii.eqb c1 cr && Ascii.eqb c2 lf then Some (2 + n + 2) else Some (2 + n + 1)
      | String _ EmptyString => Some (2 + n + 1)
      | EmptyString => Some (2 + n)
      end
  | _ => None
  end.

(** The length up to and including the first [*/]. *)
Fixpoint until_close (s : string) : option nat :=
  match s with
  | String "*" ((String "/" _) as s') => Some 2
  | String _ s' => S <$> until_close s'
  | EmptyString => None
  end.

(** [/\*[\s\S]*?\*/] *)
Definition comment_multi : rule := λ _ s,
  match s with
  | String "/" (String "*" s') => (λ n, 2 + n) <$> until_close s'
  | _ => None
  end.

(** [(\r\n|\r|\n)] *)
Definition newline : rule := λ _ s,
  match s with
  | String c1 s' =>
      if Ascii.eqb c1 cr then (if next_is (is_char lf) s' then Some 2 else Some 1)
      else if Ascii.eqb c1 lf then Some 1 else None
  | EmptyString => None
  end.

(** A one-character rule. *)
Definition one (p : ascii → bool) : rule := λ _ s,
  if next_is p s then Some 1 else None.

(** A quoted text [q(qq|\q|[^q])*q]; the alternatives are tried in this
    order and the closing quote last, as the regular expression does. *)
Fixpoint quoted_body (q : ascii) (escapes : bool) (s : string) : option nat :=
  match s with
  | EmptyString => None
  | String c s' =>
      let by_pair (is_first : bool) :=
        if is_first then
          match s' with
          | String c' s'' =>
              if Ascii.eqb c' q then (λ n, 2 + n) <$> quoted_body q escapes s'' else None
          | EmptyString => None
          end
        else None in
      let doubled := by_pair (Ascii.eqb c q) in
      let escaped := by_pair (escapes && Ascii.eqb c backslash) in
      let plain := if Ascii.eqb c q then None else S <$> quoted_body q escapes s' in
      let close := if Ascii.eqb c q then Some 1 else None in
      match doubled, escaped, plain with
      | Some n, _, _ => Some n
      | None, Some n, _ => Some n
      | None, None, Some n => Some n
      | None, None, None => close
      end
  end.

Definition quoted (q : ascii) (escapes : bool) : rule := λ _ s,
  match s with
  | String c s' => if Ascii.eqb c q then S <$> quoted_body q escapes s' else None
  | EmptyString => None
  end.

(** [(w1|w2|...)\b] for words made of word characters. *)
Definition one_of (ws : list string) : rule := λ _ s,
  if bool_decide (word s ∈ ws) then Some (span Py.is_word s) else None.

(** [[A-Z]\w*] followed, after [skip] characters, by [stop]. *)
Definition name_before (skip stop : ascii → bool) : rule := λ _ s,
  let n := span Py.is_word s in
  let rest := drop n s in
  if next_is is_letter s && next_is stop (drop (span skip rest) rest)
  then Some n else None.

(** [(?<=\.)[A-Z]\w*] *)
Definition name_after_dot : rule := λ prev s,
  match prev with
  | Some "."%char => if next_is is_letter s then Some (span Py.is_word s) else None
  | _ => None
  end.

(** An optional sign. *)
Definition sign (s : string) : nat := if next_is (is_char "-") s then 1 else 0.

(** [-?0x[\dA-F]+] *)
Definition hexadecimal : rule := λ _ s,
  let s0 := drop (sign s) s in
  match s0 with
  | String "0" (String x s') =>
      if Ascii.eqb x "x" || Ascii.eqb x "X"
      then (λ n, sign s + 2 + n) <$> positive_length (span is_hex s')
      else None
  | _ => None
  end.

(** [-?\d+(\.\d+)?E-?\d+] *)
Definition float_e : rule := λ _ s,
  let s0 := drop (sign s) s in
  let d1 := span Py.is_digit s0 in
  let s1 := drop d1 s0 in
  let frac :=
    match s1 with
    | String "." s' => match span Py.is_digit s' with 0 => 0 | S k => 2 + k end
    | _ => 0
    end in
  let s2 := drop frac s1 in
  match d1, s2 with
  | S _, String e s3 =>
      if Ascii.eqb e "E" || Ascii.eqb e "e" then
        let s4 := drop (sign s3) s3 in
        (λ d2, sign s + d1 + frac + 1 + sign s3 + d2) <$> positive_length (span Py.is_digit s4)
      else None
  | _, _ => None
  end.

(** The closing [(?![_A-Z])] of the number rules: a greedy run of [n]
    digits gives one digit back when a letter follows it. *)
Definition digits_then_no_letter (least n : nat) (after : string) : option nat :=
  if next_is is_name_start after
  then (if decide (least < n) then Some (n - 1) else None)
  else (if decide (least ≤ n) then Some n else None).

(** [(?![_A-Z])-?(\d+\.\d{0,}|\.\d+)(?![_A-Z])] *)
Definition float : rule := λ _ s,
  let s0 := drop (sign s) s in
  let d1 := span Py.is_digit s0 in
  match drop d1 s0 with
  | String "." s' =>
      let d2 := span Py.is_digit s' in
      (λ k, sign s + d1 + 1 + k) <$>
        digits_then_no_letter (if decide (d1 = 0) then 1 else 0) d2 (drop d2 s')
  | _ => None
  end.

(** [(?![_A-Z])-?\d+(?![_A-Z])] *)
Definition integer : rule := λ _ s,
  let s0 := drop (sign s) s in
  let d := span Py.is_digit s0 in
  (λ k, sign s + k) <$> digits_then_no_letter 1 d (drop d s0).

(** [w\s+] when [w] is one of [ws]: the length of word and blanks. *)
Definition word_blanks (ws : list string) (s : string) : option nat :=
  let n := span Py.is_word s in
  let b := span Ascii.is_space (drop n s) in
  if bool_decide (word s ∈ ws) then (λ b, n + b) <$> positive_length b else None.

Definition optional (m : option nat) : nat := default 0 m.

(** [w\b] at the start of [drop n s]: the length from the start of [s]. *)
Definition then_word (ws : list string) (n : nat) (s : string) : option nat :=
  (λ k, n + k) <$> one_of ws None (drop n s).

(** [((LEFT\s+|RIGHT\s+|FULL\s+)?(INNER\s+|OUTER\s+|STRAIGHT\s+)?|(CROSS\s+|NATURAL\s+)?)?JOIN\b] *)
Definition join_keyword : rule := λ _ s,
  let a := optional (word_blanks ["LEFT"; "RIGHT"; "FULL"] s) in
  let b := optional (word_blanks ["INNER"; "OUTER"; "STRAIGHT"] (drop a s)) in
  match then_word ["JOIN"] (a + b) s with
  | Some n => Some n
  | None => then_word ["JOIN"] (optional (word_blanks ["CROSS"; "NATURAL"] s)) s
  end.

(** [w1\s+(w2a|w2b|...)\b] *)
Definition two_words (w1 : string) (w2 : list string) : rule := λ _ s,
  n ← word_blanks [w1] s; then_word w2 n s.

(** [CREATE(\s+OR\s+REPLACE)?\b] *)
Definition create_keyword : rule := λ _ s,
  match (n ← word_blanks ["CREATE"] s; two_words "OR" ["REPLACE"] None (drop n s)
                                        ≫= λ k, Some (n + k)) with
  | Some n => Some n
  | None => one_of ["CREATE"] None s
  end.

(** [[0-9_\w][_$#\w]*], read through the keyword table. *)
Definition any_word : rule := λ _ s, positive_length (span Py.is_word s).

Definition keywords_dml : list string :=
  ["SELECT"; "INSERT"; "DELETE"; "UPDATE"; "UPSERT"; "REPLACE"; "MERGE"].
Definition keywords_ddl : list string := ["DROP"; "CREATE"; "ALTER"].
Definition keywords_plain : list string :=
  ["WHERE"; "FROM"; "INNER"; "JOIN"; "AND"; "OR"; "LIKE"; "ON"; "IN"; "SET";
   "BY"; "GROUP"; "ORDER"; "LEFT"; "OUTER"; "FULL"; "IF"; "END"; "THEN";
   "LOOP"; "AS"; "ELSE"; "FOR"; "WHILE"; "CASE"; "WHEN"; "MIN"; "MAX";
   "DISTINCT"; "TABLE"; "TRUNCATE"; "INTO"; "VALUES"; "NULL"; "NOT"; "IS";
   "HAVING"; "LIMIT"; "OFFSET"; "UNION"; "ALL"; "EXISTS"; "BETWEEN"; "USING"].

(** [Lexer.is_keyword]. *)
Definition is_keyword (v : string) : TokenType :=
  let val := Py.upper v in
  if bool_decide (val ∈ keywords_dml) then DML
  else if bool_decide (val ∈ keywords_ddl) then DDL
  else if bool_decide (val ∈ ["ASC"; "DESC"]) then Order
  else if bool_decide (val ∈ keywords_plain) then Keyword
  else Name.

Definition is_punctuation (c : ascii) : bool :=
  bool_decide (c ∈ [";"; ","; "."; "("; ")"]%char).
Definition is_comparison (c : ascii) : bool :=
  bool_decide (c ∈ ["<"; ">"; "="; "!"]%char).
Definition is_operator (c : ascii) : bool :=
  bool_decide (c ∈ ["+"; "/"; "%"; "&"; "|"; "-"]%char).

Definition run (p : ascii → bool) : rule := λ _ s, positive_length (span p s).

(** The rules in the order of [SQL_REGEX]; [None] as the type of a rule
    sends the match through [is_keyword]. *)
Definition SQL_REGEX : list (rule * option TokenType) :=
  [ (comment_single, Some Comment);
    (comment_multi, Some Multiline);
    (newline, Some Newline);
    (one Ascii.is_space, Some Whitespace);
    (one (is_char "*"), Some Wildcard);
    (quoted backtick false, Some Name);
    (one_of ["CASE"; "IN"; "VALUES"; "USING"; "FROM"; "AS"], Some Keyword);
    (name_before Ascii.is_space (is_char "."), Some Name);
    (name_after_dot, Some Name);
    (name_before (λ _, false) (is_char "("), Some Name);
    (hexadecimal, Some Hexadecimal);
    (float_e, Some Float);
    (float, Some Float);
    (integer, Some Integer);
    (quoted quote true, Some Single);
    (quoted dquote true, Some Symbol);
    (join_keyword, Some Keyword);
    (two_words "NOT" ["NULL"], Some Keyword);
    (two_words "UNION" ["ALL"], Some Keyword);
    (create_keyword, Some DDL);
    (two_words "GROUP" ["BY"], Some Keyword);
    (two_words "ORDER" ["BY"], Some Keyword);
    (any_word, None);
    (one is_punctuation, Some Punctuation);
    (run is_comparison, Some Comparison);
    (run is_operator, Some Operator) ].

(** The first rule that matches, with the token it yields. *)
Fixpoint first_match (rules : list (rule * option TokenType))
    (prev : option ascii) (s : string) : option Token :=
  match rules with
  | [] => None
  | (r, ty) :: rules' =>
      match r prev s with
      | Some n =>
          let v := take n s in
          Some (mkToken (from_option id (is_keyword v) ty) v)
      | None => first_match rules' prev s
      end
  end.

(** [Lexer.get_tokens]: a character that no rule matches is an [Error]
    token of its own. *)
Fixpoint get_tokens (fuel : nat) (prev : option ascii) (s : string) : list Token :=
  match fuel, s with
  | S fuel', String c _ =>
      let t := default (mkToken Error (String c EmptyString)) (first_match SQL_REGEX prev s) in
      let n := String.length (value t) in
      t :: get_tokens fuel' (Py.last_char prev (value t)) (drop n s)
  | _, _ => []
  end.

Definition lex (s : string) : list Token := get_tokens (String.length s) None s.

Definition is_whitespace (t : Token) : bool :=
  bool_decide (ttype t = Whitespace) || bool_decide (ttype t = Newline).

Definition is_comment (t : Token) : bool :=
  bool_decide (ttype t = Comment) || bool_decide (ttype t = Multiline).

(** [ttype not in EOS_TTYPE] fails for a blank and for a one-line
    comment. *)
Definition is_eos (t : Token) : bool :=
  bool_decide (ttype t = Whitespace) || bool_decide (ttype t = Comment).

(** [ttype is T.Punctuation and value == v]. *)
Definition is_punct (v : string) (t : Token) : bool :=
  bool_decide (ttype t = Punctuation) && String.eqb (value t) v.

(** [StatementSplitter.process]: a statement ends with a [;] outside
    parentheses and takes the blanks and one-line comments that follow
    it; the next token starts a new statement.  A last statement of
    blanks only is dropped, as the current releases of the library do;
    no statement evaluated in this file ends in blanks. *)
Fixpoint split (level : Z) (consume_ws : bool) (current : list Token)
    (tokens : list Token) : list (list Token) :=
  match tokens with
  | [] => if forallb is_whitespace current then [] else [current]
  | t :: tokens' =>
      let finished := consume_ws && negb (is_eos t) in
      let level0 := if finished then 0%Z else level in
      let level' :=
        if is_punct "(" t then (level0 + 1)%Z
        else if is_punct ")" t then (level0 - 1)%Z
        else level0 in
      let ends := bool_decide (level' ≤ 0)%Z && is_punct ";" t in
      if finished
      then current :: split level' ends [t] tokens'
      else split level' (consume_ws || ends) (current ++ [t]) tokens'
  end.

(** [Statement.get_type]: the first token that is neither a blank nor a
    comment decides. *)
Definition get_type_of (tokens : list Token) : string :=
  match List.find (λ t, negb (is_whitespace t || is_comment t)) tokens with
  | Some t =>
      if bool_decide (ttype t = DML) || bool_decide (ttype t = DDL)
      then Py.upper (value t) else "UNKNOWN"
  | None => "UNKNOWN"
  end.

(** [sqlparse.parse]. *)
Definition parse (sql : string) : outcome (list Statement) :=
  Return ((λ tokens, mkStatement (get_type_of tokens) tokens) <$> split 0 false [] (lex sql)).

End SqlparseModel.

(** ** The safety gate, as the specification words it

    A keyword occurs in a text as a whole word when the text is
    [pre ++ kw ++ post] with no word character next to the keyword on
    either side. *)

Definition occurs_as_whole_word (kw s : string) : Prop :=
  ∃ pre post, s = pre +:+ kw +:+ post ∧
    Py.is_word_at (Py.last_char None pre) = false ∧
    Py.is_word_at (Py.head_char post) = false.

(** [kw] is the first keyword of the deny-list, in list order, that occurs
    in [s] as a whole word. *)
Definition first_listed_occurrence (kw s : string) : Prop :=
  ∃ before after, unsafe_keywords = before ++ kw :: after ∧
    occurs_as_whole_word kw s ∧
    ∀ k, k ∈ before → ¬ occurs_as_whole_word k s.

(** A keyword that starts and ends with a word character. *)
Definition word_delimited (kw : string) : Prop :=
  Py.is_word_at (Py.head_char kw) = true ∧ Py.is_word_at (Py.last_char None kw) = true.





(** The schema of the specification's scenarios. *)
Definition users : Table :=
  mkTable "users" "People" [("user_id", "Identifier"); ("name", "Full name")].

Definition incidents : Table :=
  mkTable "incidents" "Reported incidents"
    [("incident_id", "Identifier"); ("user_id", "Reporter"); ("status", "State")].

Definition scenario_schema : option (list Table) := Some [users; incidents].


(** Two iteration orders of a set, as two hash seeds may give them. *)
Definition seed_a {A} `{Countable A} (X : gset A) : list A := elements X.
Definition seed_b {A} `{Countable A} (X : gset A) : list A := reverse (elements X).

(** ** Preprocessing of the user's question

    More of Python's [str] and [re], then
    [Text2SQLSystem.preprocess_query]. *)

Module PyText.

(** [str.isspace] on an ASCII character, which is also the class [\s]. *)
Definition is_space (c : ascii) : bool :=
  let n := N_of_ascii c in
  ((9 <=? n)%N && (n <=? 13)%N) || ((28 <=? n)%N && (n <=? 32)%N).

Fixpoint lstrip (s : string) : string :=
  match s with
  | String c s' => if is_space c then lstrip s' else s
  | EmptyString => EmptyString
  end.

Fixpoint rstrip (s : string) : string :=
  match s with
  | String c s' =>
      match rstrip s' with
      | EmptyString => if is_space c then EmptyString else String c EmptyString
      | r => String c r
      end
  | EmptyString => EmptyString
  end.

(** [s.strip()]. *)
Definition strip (s : string) : string := rstrip (lstrip s).

(** [s.split()]: the maximal runs of characters that are not blanks. *)
Fixpoint split (s : string) : list string :=
  match s with
  | EmptyString => []
  | String c s' =>
      if is_space c then split s'
      else match s' with
           | String c' _ =>
               if is_space c' then String c EmptyString :: split s'
               else match split s' with
                    | w :: ws => String c w :: ws
                    | [] => [String c EmptyString]
                    end
           | EmptyString => [String c EmptyString]
           end
  end.

(** Every character of [s] satisfies [p]. *)
Fixpoint all_chars (p : ascii → bool) (s : string) : bool :=
  match s with
  | EmptyString => true
  | String c s' => p c && all_chars p s'
  end.

(** [re.sub(r'[^\w\s]', ' ', s)]. *)
Definition sub_punctuation (s : string) : string :=
  Py.map_str (λ c, if Py.is_word c || is_space c then c else " "%char) s.

(** [re.search(r'\b(a1|a2|...)\b', s)] at one position: the alternative
    matched, the first in the order written. *)
Definition match_alt_here (prev : option ascii) (alts : list string) (s : string)
    : option string :=
  List.find (λ a, Py.match_word_here prev a s) alts.

(** [re.search(r'\b(a1|a2|...)\b', s)]: [group(1)] of the leftmost match. *)
Fixpoint search_alt_from (prev : option ascii) (alts : list string) (s : string)
    : option string :=
  match match_alt_here prev alts s with
  | Some a => Some a
  | None =>
      match s with
      | EmptyString => None
      | String c s' => search_alt_from (Some c) alts s'
      end
  end.

Definition search_alt (alts : list string) (s : string) : option string :=
  search_alt_from None alts s.

Definition newline : ascii := ascii_of_nat 10.

(** [.*t\b] at the start of [s]: [t], ending at a word boundary, starts
    here or further on, no line break in between. *)
Fixpoint dotstar_then (t : string) (prev : option ascii) (s : string) : bool :=
  match Py.strip_prefix t s with
  | Some rest => Py.word_boundary (Py.last_char prev t) (Py.head_char rest)
  | None => false
  end ||
  match s with
  | String c s' => negb (Ascii.eqb c newline) && dotstar_then t (Some c) s'
  | EmptyString => false
  end.

(** [\b(h.*t)\b] at one position. *)
Definition match_between_here (prev : option ascii) (h t s : string) : bool :=
  Py.word_boundary prev (Py.head_char s) &&
  match Py.strip_prefix h s with
  | Some rest => dotstar_then t (Py.last_char prev h) rest
  | None => false
  end.

(** [re.search(r'\b(h1.*t|h2.*t|...)\b', s)] is not [None]. *)
Fixpoint search_between_from (prev : option ascii) (hs : list string) (t s : string)
    : bool :=
  existsb (λ h, match_between_here prev h t s) hs ||
  match s with
  | EmptyString => false
  | String c s' => search_between_from (Some c) hs t s'
  end.

Definition search_between (hs : list string) (t s : string) : bool :=
  search_between_from None hs t s.

End PyText.

(** [self.synonyms]. *)
Definition synonyms : gmap string string :=
  list_to_map
    [("employees", "users"); ("issues", "incidents");
     ("department head", "manager_id"); ("ticket", "tickets");
     ("incident", "incidents"); ("asset", "assets"); ("dept", "departments");
     ("kb", "knowledge_base"); ("article", "knowledge_base");
     ("change", "change_requests"); ("log", "logs")].

(** [potential_dml_patterns]: the alternatives of each pattern. *)
Definition potential_dml_patterns : list (list string) :=
  [ ["delete"; "remove"; "erase"; "clear"];
    ["insert"; "add"; "create"; "created"];
    ["update"; "modify"; "change"; "edit"; "updated"];
    ["drop"; "truncate"; "alter"] ].

(** [unavailable_info_patterns]: the first and the third are lists of
    words, the second reads [\b(how many.*removed|count.*removed|list.*removed)\b]. *)
Definition unavailable_words_1 : list string :=
  ["removed"; "deleted"; "archived"; "inactive"; "disabled"].
Definition unavailable_heads : list string := ["how many"; "count"; "list"].
Definition unavailable_words_3 : list string := ["removal"; "deletion"; "archive"].

Definition unavailable_message : string :=
  "Unsupported Query: The query asks for information about user removal/deletion, but the schema does not contain columns for tracking removed users (like 'removed', 'deleted', or 'archived' status).".

(** What [preprocess_query] returns: the dictionary with the keys
    [query], [possible_dml] and [detected_words], or the pair
    [(None, message)]. *)
Inductive Preprocessed : Type :=
  | Processed (query : string) (possible_dml : bool) (detected_words : list string)
  | Unsupported (message : string).

(** [cleaned_query], after the three cleaning statements. *)
Definition clean_query (query : string) : string :=
  let cleaned_query := PyText.strip (Py.lower query) in
  let cleaned_query := PyText.sub_punctuation cleaned_query in
  Py.join " " (PyText.split cleaned_query).

(** The loop over [potential_dml_patterns]: [possible_dml] and
    [detected_words] after it. *)
Definition detect_dml (cleaned_query : string) : bool * list string :=
  foldl (λ '(possible_dml, detected_words) alts,
           match PyText.search_alt alts cleaned_query with
           | Some word => (true, detected_words ++ [word])
           | None => (possible_dml, detected_words)
           end)
        (false, []) potential_dml_patterns.

(** [if re.search(...)]: a match was found. *)
Definition found (m : option string) : bool :=
  match m with
  | Some _ => true
  | None => false
  end.

(** The loop over [unavailable_info_patterns]: some pattern is found. *)
Definition asks_unavailable (cleaned_query : string) : bool :=
  found (PyText.search_alt unavailable_words_1 cleaned_query) ||
  PyText.search_between unavailable_heads "removed" cleaned_query ||
  found (PyText.search_alt unavailable_words_3 cleaned_query).

(** The loop that replaces synonyms, word by word. *)
Definition replace_synonyms (table : gmap string string) (words : list string)
    : list string :=
  (λ word, match table !! word with Some v => v | None => word end) <$> words.

(** [Text2SQLSystem.preprocess_query], for the synonym table [table] of
    the instance; the three [print] calls are left out. *)
Definition preprocess_query (table : gmap string string) (query : string)
    : Preprocessed :=
  let cleaned_query := clean_query query in
  let '(possible_dml, detected_words) := detect_dml cleaned_query in
  if asks_unavailable cleaned_query then Unsupported unavailable_message
  else
    let words := PyText.split cleaned_query in
    let processed_query := Py.join " " (replace_synonyms table words) in
    Processed processed_query possible_dml detected_words.

(** *** Words of a text *)

(** A word as [split] yields them: not empty, and free of blanks. *)
Definition is_token (w : string) : Prop :=
  w ≠ "" ∧ PyText.all_chars (λ c, negb (PyText.is_space c)) w = true.

(** The text starts a new word: it is empty or begins with a blank. *)
Definition blank_ahead (s : string) : bool :=
  from_option PyText.is_space true (Py.head_char s).

(** The text ends a word: it is empty or ends with a blank. *)
Definition blank_behind (s : string) : bool :=
  from_option PyText.is_space true (Py.last_char None s).

(** A word of a cleaned question: word characters, none in upper case. *)
Definition plain_char (c : ascii) : bool := Py.is_word c && negb (Py.is_upper c).

Definition plain_word (w : string) : bool :=
  negb (String.eqb w "") && PyText.all_chars plain_char w.

(** The characters of a processed question. *)
Definition query_char (c : ascii) : bool := plain_char c || Ascii.eqb c " ".

(** [h], starting at a word boundary, is followed on the same line by
    [t], ending at a word boundary. *)
Definition occurs_between (h t s : string) : Prop :=
  ∃ pre mid post, s = pre +:+ h +:+ mid +:+ t +:+ post ∧
    Py.is_word_at (Py.last_char None pre) = false ∧
    Py.contains PyText.newline mid = false ∧
    Py.is_word_at (Py.head_char post) = false.

(** ** The schema file, the prompt and the generator's answer

    [Text2SQLSystem.load_schema], [create_schema_context],
    [generate_sql_with_gemini] and [process_query]. *)

Definition nl : string := String PyText.newline "".
Definition dq : string := String (ascii_of_nat 34) "".

(** The lines of a literal text, each closed by a line break. *)
Definition lines (ls : list string) : string := foldr (λ l r, l +:+ nl +:+ r) "" ls.

(** [p in s] for a text [p]. *)
Fixpoint in_str (p s : string) : bool :=
  found (Py.strip_prefix p s) ||
  match s with
  | EmptyString => false
  | String _ s' => in_str p s'
  end.

(** [s.startswith(p)]. *)
Definition startswith (p s : string) : bool := found (Py.strip_prefix p s).

(** *** [load_schema] *)

(** What [with open(path, 'r') as f: return json.load(f)] does for one
    path: the document is loaded, [FileNotFoundError] is raised, or
    another exception is. *)
Inductive Opened : Type :=
  | Loaded (document : list Table)
  | FileNotFound
  | Failed (e : string).

Definition schema_paths : list string :=
  [ "simple_enterprise_schema.json";
    "./simple_enterprise_schema.json";
    "/Users/adityarajput/Assignment 1 /simple_enterprise_schema.json" ].

(** [repr] of a list of [str] that hold no quote, backslash or control
    character. *)
Definition repr_list (l : list string) : string :=
  "[" +:+ Py.join ", " ((λ s, "'" +:+ s +:+ "'") <$> l) +:+ "]".

(** The loop over the paths: the [return] inside it, the end of the
    loop ([None]), or an exception that leaves it. *)
Fixpoint first_found (open_json : string → Opened) (paths : list string)
    : outcome (option (list Table)) :=
  match paths with
  | [] => Return None
  | path :: paths' =>
      match open_json path with
      | Loaded document => Return (Some document)
      | FileNotFound => first_found open_json paths'
      | Failed e => Raise e
      end
  end.

(** [Text2SQLSystem.load_schema]: the value returned and the messages
    given to [st.error]. *)
Definition load_schema (open_json : string → Opened) : option (list Table) * list string :=
  match first_found open_json schema_paths with
  | Return (Some document) => (Some document, [])
  | Return None =>
      (None, ["Schema file not found! Tried paths: " +:+ repr_list schema_paths])
  | Raise e => (None, ["Error loading schema: " +:+ e])
  end.

(** *** [create_schema_context] *)

Definition schema_notes : string :=
  nl +:+ lines
    [ "Important Notes:";
      "- Use only the tables and columns listed above";
      "- For joins, use the correct foreign key relationships:";
      "  * incidents.user_id -> users.user_id";
      "  * assets.assigned_to -> users.user_id";
      "  * tickets.user_id -> users.user_id";
      "  * tickets.assigned_to -> users.user_id";
      "  * departments.manager_id -> users.user_id";
      "  * knowledge_base.created_by -> users.user_id";
      "  * change_requests.requested_by -> users.user_id";
      "  * logs.user_id -> users.user_id";
      "- Only generate SELECT queries, no DML operations" ].

(** [Text2SQLSystem.create_schema_context]; [context] grows by [+=]. *)
Definition create_schema_context (schema : option (list Table)) : outcome string :=
  let context := "Database Schema:" +:+ nl +:+ nl in
  tables ← schema_tables schema;
  let context :=
    foldl (λ context table,
             let context := context +:+ "Table: " +:+ table_name table +:+ nl in
             let context := context +:+ "Description: " +:+ description table +:+ nl in
             let context := context +:+ "Columns:" +:+ nl in
             let context :=
               foldl (λ context '(col_name, col_desc),
                        context +:+ "  - " +:+ col_name +:+ ": " +:+ col_desc +:+ nl)
                     context (columns table) in
             context +:+ nl)
          context tables in
  Return (context +:+ schema_notes).

(** *** The prompt *)

(** [dml_context] when [possible_dml] holds; the arrows of the source
    text are kept as its bytes. *)
Definition dml_detection (detected_words : list string) : string :=
  nl +:+ lines
    [ "IMPORTANT DML DETECTION:";
      "This query contains words like: " +:+ Py.join ", " detected_words;
      "Please carefully analyze if these words refer to:";
      "- Schema columns (like created_at, deleted_flag, updated_on) ‚Üí SAFE, generate SELECT query";
      "- DML operations (INSERT, UPDATE, DELETE, CREATE TABLE, etc.) ‚Üí UNSUPPORTED, return error";
      "";
      "If the query is asking for information about data (SELECT), generate SQL.";
      "If the query is trying to modify data (DML), respond with: " +:+ dq +:+ "ERROR: Only SELECT queries are allowed." +:+ dq ].

(** The text of the prompt behind the quoted question. *)
Definition prompt_requirements : string :=
  lines
    [ "";
      "CRITICAL REQUIREMENTS:";
      "1. Generate only a SELECT query";
      "2. Use ONLY the exact tables and columns listed in the schema above - NO EXCEPTIONS";
      "3. Do NOT invent, assume, or add any columns that are not explicitly listed in the schema";
      "4. If the query asks for information that requires columns NOT in the schema, return an error";
      "5. Use appropriate JOINs based on foreign key relationships";
      "6. Return only the SQL query, no explanations";
      "7. Use proper SQL syntax and formatting";
      "";
      "SCHEMA VALIDATION - MANDATORY:";
      "- Check EVERY column reference against the schema above";
      "- If ANY column doesn't exist in the schema, return an error";
      "- Do NOT assume common columns like 'created_at', 'updated_at', 'modified_at', etc. exist";
      "- Do NOT assume typical database columns exist unless explicitly listed";
      "- Even if the query makes logical sense, if the required columns don't exist, return an error";
      "";
      "EXAMPLE:";
      "- If query asks for " +:+ dq +:+ "tickets created last week" +:+ dq +:+ " but tickets table has no created_at column ‚Üí ERROR";
      "- If query asks for " +:+ dq +:+ "users updated yesterday" +:+ dq +:+ " but users table has no updated_at column ‚Üí ERROR";
      "- Do NOT generate SQL with non-existent columns";
      "";
      "IMPORTANT: If the query cannot be answered with the available schema (missing tables/columns), respond with: " +:+ dq +:+ "ERROR: Query cannot be answered with available schema" +:+ dq ].

(** [prompt]. *)
Definition make_prompt (schema_context dml_context processed_query : string) : string :=
  schema_context +:+ dml_context +:+ nl +:+ nl +:+
  "Convert this natural language query to SQL:" +:+ nl +:+
  dq +:+ processed_query +:+ dq +:+ nl +:+ prompt_requirements.

(** *** The answer of the generator *)

Definition fence : string := "```".

(** [^```sql\s*], letter case ignored, at the start of [s]: what
    follows the match. *)
Definition opening_fence (s : string) : option string :=
  match Py.strip_prefix fence s with
  | Some rest =>
      if String.eqb (Py.lower (String.substring 0 3 rest)) "sql"
      then Some (PyText.lstrip (String.substring 3 (String.length rest - 3) rest))
      else None
  | None => None
  end.

(** [\s*```$] at the start of [s]: what the match leaves of [s], which
    is nothing or the final line break that [$] lets stand. *)
Definition closing_fence (s : string) : option string :=
  match Py.strip_prefix fence (PyText.lstrip s) with
  | Some rest => if String.eqb rest "" || String.eqb rest nl then Some rest else None
  | None => None
  end.

(** The second alternative of the pattern replaced by nothing, from a
    position behind the start of the text.  No match starts in what a
    match leaves. *)
Fixpoint sub_closing_fence (s : string) : string :=
  match closing_fence s with
  | Some rest => rest
  | None =>
      match s with
      | EmptyString => EmptyString
      | String c s' => String c (sub_closing_fence s')
      end
  end.

(** [re.sub(r'^```sql\s*|\s*```$', '', s, flags=re.IGNORECASE)]. *)
Definition sub_fences (s : string) : string :=
  match opening_fence s with
  | Some rest => sub_closing_fence rest
  | None => sub_closing_fence s
  end.

(** [sql_query] after the clean-up of [response.text]. *)
Definition clean_response (text : string) : string :=
  let sql_query := PyText.strip text in
  if startswith fence sql_query then sub_fences sql_query else sql_query.

(** The test for an error that the generator answered. *)
Definition answers_error (sql_query : string) : bool :=
  startswith "ERROR:" (Py.upper sql_query) ||
  in_str "cannot be answered" (Py.lower sql_query).

(** Python's truth value of [None] or a [str]. *)
Definition truthy (v : option string) : bool :=
  match v with
  | Some (String _ _) => true
  | _ => false
  end.

(** [a or b]. *)
Definition py_or (a b : option string) : option string := if truthy a then a else b.

Section Generator.

(** [os.getenv]. *)
Variable getenv : string → option string.

(** The last operand of the [or] that gives [api_key], a string literal. *)
Variable hard_coded_key : string.

(** [genai.configure(api_key=...)] and [GenerativeModel('gemini-1.5-flash')]. *)
Variable configure : string → outcome unit.

(** [model.generate_content(prompt).text]. *)
Variable generate_content : string → outcome string.

(** [self.schema]. *)
Variable schema : option (list Table).

(** The [try] block of [generate_sql_with_gemini]; [processed_data] is
    given by its three entries. *)
Definition generate_sql_body (processed_query : string) (possible_dml : bool)
    (detected_words : list string) : outcome (option string * option string) :=
  let api_key :=
    py_or (getenv "GEMINI_API_KEY")
          (py_or (getenv "GEMINI_API_KEY_2") (Some hard_coded_key)) in
  if negb (truthy api_key) then Return (None, Some "Gemini API key not found.")
  else
    _ ← configure (default "" api_key);
    schema_context ← create_schema_context schema;
    let dml_context := if possible_dml then dml_detection detected_words else "" in
    let prompt := make_prompt schema_context dml_context processed_query in
    text ← generate_content prompt;
    let sql_query := clean_response text in
    if answers_error sql_query then Return (None, Some ("Unsupported Query: " +:+ sql_query))
    else Return (Some sql_query, None).

(** [Text2SQLSystem.generate_sql_with_gemini]. *)
Definition generate_sql_with_gemini (processed_query : string) (possible_dml : bool)
    (detected_words : list string) : option string * option string :=
  match generate_sql_body processed_query possible_dml detected_words with
  | Return r => r
  | Raise e => (None, Some ("Error generating SQL: " +:+ e))
  end.

Variable iter_names : gset string → list string.
Variable iter_pairs : gset (string * string) → list (string * string).
Variable parse : string → outcome (list Statement).

(** [str(e)] of the exception that [sqlparse.parse(None)] raises. *)
Variable parse_none_error : string.

(** [self.validate_sql(sql_query)] for the first item of the pair that
    the generator returned. *)
Definition validate_generated (sql_query : option string) : outcome (bool * string) :=
  match sql_query with
  | Some sql => validate_sql iter_names iter_pairs parse schema sql
  | None => Return (false, msg_validation_error parse_none_error)
  end.

(** [Text2SQLSystem.process_query]: the tuple of the generated SQL, the
    error, the SQL that was validated and the validation status. *)
Definition process_query (user_query : string)
    : outcome (option string * option string * option string * option string) :=
  match preprocess_query synonyms user_query with
  | Unsupported message => Return (None, Some message, None, None)
  | Processed query possible_dml detected_words =>
      let '(sql_query, error) :=
        generate_sql_with_gemini query possible_dml detected_words in
      if truthy error then
        Return (None, Some ("SQL Generation Error: " +:+ default "" error), None, None)
      else
        '(is_valid, validation_msg) ← validate_generated sql_query;
        if negb is_valid then
          Return (None, Some validation_msg, sql_query, Some "Validation Failed")
        else Return (sql_query, None, sql_query, Some "Validation Passed")
  end.

End Generator.

(** *** The schema context, block by block *)

Definition concat_str (l : list string) : string := foldr String.append "" l.

Definition column_line (c : string * string) : string :=
  "  - " +:+ c.1 +:+ ": " +:+ c.2 +:+ nl.

Definition table_block (t : Table) : string :=
  "Table: " +:+ table_name t +:+ nl +:+
  "Description: " +:+ description t +:+ nl +:+
  "Columns:" +:+ nl +:+
  concat_str (column_line <$> columns t) +:+ nl.

(** ** The safety gate on Unicode text

    A Python [str] is a sequence of code points.  [str.upper] and the
    word class [\w] of [re] follow the Unicode database; they are
    parameters here.  On text of the ASCII range they are the functions
    of [Py], which is what [python_text] records. *)

Module Unicode.

Definition str : Type := list N.

(** A literal of the source, or any text of one-byte characters, as
    code points. *)
Definition codes (s : string) : str := N_of_ascii <$> list_ascii_of_string s.

Definition head_char (s : str) : option N := head s.

Fixpoint last_char (prev : option N) (s : str) : option N :=
  match s with
  | [] => prev
  | c :: s' => last_char (Some c) s'
  end.

Section Patterns.

(** The class [\w] of a [str] pattern. *)
Variable is_word : N → bool.

(** [str.upper]. *)
Variable upper : str → str.

Definition is_word_at (c : option N) : bool := from_option is_word false c.

Definition word_boundary (before after : option N) : bool :=
  xorb (is_word_at before) (is_word_at after).

Fixpoint strip_prefix (kw s : str) : option str :=
  match kw, s with
  | [], _ => Some s
  | k :: kw', c :: s' => if (k =? c)%N then strip_prefix kw' s' else None
  | _ :: _, [] => None
  end.

Definition match_word_here (prev : option N) (kw s : str) : bool :=
  word_boundary prev (head_char s) &&
  match strip_prefix kw s with
  | Some rest => word_boundary (last_char prev kw) (head_char rest)
  | None => false
  end.

(** [re.search(r'\b' + kw + r'\b', s)] is not [None]. *)
Fixpoint search_word_from (prev : option N) (kw s : str) : bool :=
  match_word_here prev kw s ||
  match s with
  | [] => false
  | c :: s' => search_word_from (Some c) kw s'
  end.

Definition search_word (kw s : str) : bool := search_word_from None kw s.

(** [Text2SQLSystem.check_unsafe_query] on any text. *)
Definition check_unsafe_query (query : str) : bool * string :=
  let query_upper := upper query in
  match List.find (λ keyword, search_word (codes keyword) query_upper) unsafe_keywords with
  | Some keyword => (false, unsafe_message keyword)
  | None => (true, "Safe query")
  end.

(** [kw] occurs in [s] as a whole word. *)
Definition occurs_as_whole_word (kw s : str) : Prop :=
  ∃ pre post, s = pre ++ kw ++ post ∧
    is_word_at (last_char None pre) = false ∧
    is_word_at (head_char post) = false.

(** [kw] is the first keyword of the deny-list, in list order, that
    occurs in [s] as a whole word. *)
Definition first_listed_occurrence (kw : string) (s : str) : Prop :=
  ∃ before after, unsafe_keywords = before ++ kw :: after ∧
    occurs_as_whole_word (codes kw) s ∧
    ∀ k, k ∈ before → ¬ occurs_as_whole_word (codes k) s.

Definition word_delimited (kw : str) : Prop :=
  is_word_at (head_char kw) = true ∧ is_word_at (last_char None kw) = true.

End Patterns.

(** A character of the ASCII range, and a text of such characters. *)
Definition ascii_char (c : ascii) : bool := (N_of_ascii c <? 128)%N.

Definition ascii_text (s : string) : bool := PyText.all_chars ascii_char s.

(** The character, if there is one, is of the ASCII range. *)
Definition ascii_at (c : option ascii) : bool := from_option ascii_char true c.

(** What Python's functions do on ASCII text. *)
Record python_text (is_word : N → bool) (upper : str → str) : Prop := {
  word_ascii : ∀ c, ascii_char c = true → is_word (N_of_ascii c) = Py.is_word c;
  upper_ascii : ∀ s, ascii_text s = true → upper (codes s) = codes (Py.upper s)
}.

(** Functions that agree with Python's on the ASCII range and on three
    more code points: 233 and 201 (e with acute, small and capital) and
    383 (long s), whose capital is [S]. *)
Definition sample_word (c : N) : bool :=
  ((65 <=? c) && (c <=? 90) || (97 <=? c) && (c <=? 122) ||
   (48 <=? c) && (c <=? 57) || (c =? 95) || (c =? 233) || (c =? 201) || (c =? 383))%N.

Definition sample_upper_char (c : N) : N :=
  if ((97 <=? c) && (c <=? 122))%N then (c - 32)%N
  else if (c =? 233)%N then 201%N
  else if (c =? 383)%N then 83%N
  else c.

Definition sample_upper (s : str) : str := sample_upper_char <$> s.

End Unicode.

(** * Properties *)

(** ** Strings *)

Lemma app_String c s t : String c s +:+ t = String c (s +:+ t).
Proof. reflexivity. Qed.

Lemma app_empty_l s : "" +:+ s = s.
Proof. reflexivity. Qed.

Lemma strip_prefix_Some kw s rest :
  Py.strip_prefix kw s = Some rest ↔ s = kw +:+ rest.
Proof.
  revert s. induction kw as [|k kw IH]; intros s; simpl.
  - rewrite app_empty_l. split; congruence.
  - rewrite app_String. destruct s as [|c s]; [split; discriminate|].
    destruct (Ascii.eqb_spec k c) as [->|Hne].
    + rewrite IH. split; [intros ->; reflexivity | congruence].
    + split; [discriminate | congruence].
Qed.

Lemma last_char_String p q c s :
  Py.last_char p (String c s) = Py.last_char q (String c s).
Proof. reflexivity. Qed.

Lemma last_char_app p a b :
  Py.last_char p (a +:+ b) = Py.last_char (Py.last_char p a) b.
Proof.
  revert p. induction a as [|c a IH]; intros p; [reflexivity|].
  rewrite app_String. simpl. apply IH.
Qed.

Lemma head_char_app_String c s t : Py.head_char (String c s +:+ t) = Some c.
Proof. reflexivity. Qed.

(** ** The word search finds exactly the whole-word occurrences *)

Section WordSearch.

Variable kw : string.
Hypothesis kw_delimited : word_delimited kw.

Lemma kw_nonempty : ∃ k kw', kw = String k kw' ∧ Py.is_word k = true.
Proof.
  destruct kw_delimited as [Hh _]. destruct kw as [|k kw']; [discriminate|].
  exists k, kw'. split; [reflexivity | exact Hh].
Qed.

Lemma match_word_here_spec prev s :
  Py.match_word_here prev kw s = true ↔
  Py.is_word_at prev = false ∧
  ∃ post, s = kw +:+ post ∧ Py.is_word_at (Py.head_char post) = false.
Proof.
  destruct kw_nonempty as (k & kw' & Hkw & Hk).
  destruct kw_delimited as [_ Hlast].
  unfold Py.match_word_here, Py.word_boundary.
  rewrite andb_true_iff. split.
  - intros [Hb Hm].
    destruct (Py.strip_prefix kw s) as [rest|] eqn:Hs; [|discriminate].
    apply strip_prefix_Some in Hs. subst s.
    rewrite Hkw, head_char_app_String in Hb. simpl in Hb. rewrite Hk in Hb.
    rewrite Hkw, (last_char_String prev None), <- Hkw, Hlast in Hm.
    split; [by destruct (Py.is_word_at prev)|].
    exists rest. split; [done|]. by destruct (Py.is_word_at (Py.head_char rest)).
  - intros [Hp (post & -> & Hpost)].
    assert (Py.strip_prefix kw (kw +:+ post) = Some post) as -> by by apply strip_prefix_Some.
    rewrite Hkw at 1. rewrite head_char_app_String. simpl. rewrite Hk, Hp.
    split; [done|].
    rewrite Hkw, (last_char_String prev None), <- Hkw, Hlast, Hpost. done.
Qed.

Lemma search_word_from_spec prev s :
  Py.search_word_from prev kw s = true ↔
  ∃ pre post, s = pre +:+ kw +:+ post ∧
    Py.is_word_at (Py.last_char prev pre) = false ∧
    Py.is_word_at (Py.head_char post) = false.
Proof.
  destruct kw_nonempty as (k & kw' & Hkw & Hk).
  revert prev. induction s as [|c s IH]; intros prev.
  - simpl. rewrite orb_false_r, match_word_here_spec. split.
    + intros [Hp (post & Hs & Hpost)]. by exists "", post.
    + intros (pre & post & Hs & Hp & Hpost).
      destruct pre as [|d pre]; [|by rewrite app_String in Hs].
      rewrite app_empty_l in Hs. eauto.
  - simpl. rewrite orb_true_iff, match_word_here_spec, IH. split.
    + intros [[Hp (post & Hs & Hpost)] | (pre & post & Hs & Hp & Hpost)].
      * by exists "", post.
      * exists (String c pre), post. rewrite app_String, Hs. done.
    + intros (pre & post & Hs & Hp & Hpost).
      destruct pre as [|d pre].
      * left. rewrite app_empty_l in Hs. eauto.
      * right. rewrite app_String in Hs. injection Hs as -> Hs.
        exists pre, post. done.
Qed.

Lemma search_word_spec s :
  Py.search_word kw s = true ↔ occurs_as_whole_word kw s.
Proof. apply search_word_from_spec. Qed.

End WordSearch.

Lemma unsafe_keywords_delimited kw : kw ∈ unsafe_keywords → word_delimited kw.
Proof.
  unfold unsafe_keywords. rewrite !elem_of_cons, elem_of_nil.
  intros H. repeat destruct H as [-> | H]; try (split; reflexivity). done.
Qed.


Lemma find_first {A} (f : A → bool) (before after : list A) (x : A) :
  f x = true → (∀ y, y ∈ before → f y = false) →
  List.find f (before ++ x :: after) = Some x.
Proof.
  intros Hx. induction before as [|y before IH]; intros Hb; simpl.
  - by rewrite Hx.
  - rewrite (Hb y) by left. apply IH. intros z Hz. apply Hb. by right.
Qed.

Lemma find_split {A} (f : A → bool) (l : list A) (x : A) :
  List.find f l = Some x →
  ∃ before after, l = before ++ x :: after ∧ f x = true ∧ ∀ y, y ∈ before → f y = false.
Proof.
  induction l as [|y l IH]; simpl; [discriminate|].
  destruct (f y) eqn:Hy.
  - intros [= ->]. exists [], l. split; [done|]. split; [done|].
    intros z Hz. by apply elem_of_nil in Hz.
  - intros (before & after & -> & Hx & Hb)%IH.
    exists (y :: before), after. split; [done|]. split; [done|].
    intros z [-> | Hz]%elem_of_cons; auto.
Qed.

(** ** The safety gate *)

(** ** The token walk *)











(** ** The schema checks *)






(** ** Messages *)



(** ** Verdicts of [validate_sql] *)

Section Verdicts.

Variable iter_names : gset string → list string.
Variable iter_pairs : gset (string * string) → list (string * string).
Variable parse : string → outcome (list Statement).
Variable schema : option (list Table).

(** Iterating a set visits its members. *)
Hypothesis iter_pairs_perm : ∀ X, iter_pairs X ≡ₚ elements X.






(** Whatever the parser and the schema do, the call returns a pair, and
    it reports success only when the safety gate passes. *)
Lemma validate_sql_cases q :
  ∃ ok msg, validate_sql iter_names iter_pairs parse schema q = Return (ok, msg) ∧
    (ok = true → fst (check_unsafe_query q) = true ∧ msg = msg_valid).
Proof.
  unfold validate_sql, validate_sql_body.
  destruct (parse q) as [[|statement rest]|e]; simpl.
  - eexists _, _. split; [done|]. discriminate.
  - destruct (String.eqb _ _); simpl.
    2:{ eexists _, _. split; [done|]. discriminate. }
    destruct schema as [tables|]; simpl.
    2:{ eexists _, _. split; [done|]. discriminate. }
    destruct (bool_decide _); simpl.
    2:{ eexists _, _. split; [done|]. discriminate. }
    destruct (omap _ _).
    2:{ eexists _, _. split; [done|]. discriminate. }
    destruct (check_unsafe_query q) as [[] ?]; simpl.
    + eexists _, _. split; [done|]. done.
    + eexists _, _. split; [done|]. discriminate.
  - eexists _, _. split; [done|]. discriminate.
Qed.

(** C9: for every input, parser behaviour and schema, [validate_sql]
    returns one (success, message) pair; no exception leaves it. *)
Theorem validate_sql_returns_pair q :
  ∃ ok msg, validate_sql iter_names iter_pairs parse schema q = Return (ok, msg).
Proof. destruct (validate_sql_cases q) as (ok & msg & H & _). eauto. Qed.

(** C5: when the first parsed statement is not a SELECT, the verdict is
    the only-SELECT rejection, whatever tables and columns it names and
    whatever the schema holds. *)
Theorem validate_sql_only_select q statement rest :
  parse q = Return (statement :: rest) →
  get_type statement ≠ "SELECT" →
  validate_sql iter_names iter_pairs parse schema q = Return (false, msg_only_select).
Proof.
  intros H Hty. unfold validate_sql, validate_sql_body. rewrite H. simpl.
  by apply String.eqb_neq in Hty as ->.
Qed.





End Verdicts.

(** ** The scenarios, run through the tokenizer model *)

Lemma seed_a_perm {A} `{Countable A} (X : gset A) : seed_a X ≡ₚ elements X.
Proof. reflexivity. Qed.

Lemma seed_b_perm {A} `{Countable A} (X : gset A) : seed_b X ≡ₚ elements X.
Proof. apply reverse_Permutation. Qed.


Lemma validate_sql_only_select_witness :
  validate_sql seed_a seed_a SqlparseModel.parse scenario_schema
    "DELETE FROM users WHERE user_id = 1" = Return (false, msg_only_select).
Proof.
  eapply validate_sql_only_select.
  - vm_compute. reflexivity.
  - vm_compute. discriminate.
Defined.



(** C2, on the code: the tokenizer yields [users], [.], [removed_flag] as
    three tokens, no [Name] token holds a dot, no column is collected and
    the statement is reported valid. *)
Theorem dotted_column_not_checked :
  ((λ t, (ttype t, value t)) <$> SqlparseModel.lex "SELECT users.removed_flag FROM users") =
    [(DML, "SELECT"); (Whitespace, " "); (Name, "users"); (Punctuation, ".");
     (Name, "removed_flag"); (Whitespace, " "); (Keyword, "FROM");
     (Whitespace, " "); (Name, "users")] ∧
  elements (columns_in_query (walk (SqlparseModel.lex "SELECT users.removed_flag FROM users"))) = [] ∧
  validate_sql seed_a seed_a SqlparseModel.parse scenario_schema
    "SELECT users.removed_flag FROM users" = Return (true, msg_valid).
Proof. repeat split; vm_compute; reflexivity. Qed.







(** C8, on the code: the invalid tables are joined in the iteration order
    of a set, so one statement and one schema give two texts under two
    hash seeds; the valid tables, which are sorted, come out the same. *)
Theorem report_order_follows_hash_seed :
  validate_sql seed_a seed_a SqlparseModel.parse scenario_schema
    "SELECT * FROM tickets JOIN assets" =
    Return (false,
      "Unsupported Query: Table(s) 'assets, tickets' do not exist in the database schema. Available tables: incidents, users") ∧
  validate_sql seed_b seed_b SqlparseModel.parse scenario_schema
    "SELECT * FROM tickets JOIN assets" =
    Return (false,
      "Unsupported Query: Table(s) 'tickets, assets' do not exist in the database schema. Available tables: incidents, users") ∧
  (∀ X : gset string, seed_a X ≡ₚ elements X ∧ seed_b X ≡ₚ elements X).
Proof.
  split; [vm_compute; reflexivity|]. split; [vm_compute; reflexivity|].
  intros X. split; [apply seed_a_perm | apply seed_b_perm].
Qed.


(** ** Qualified names *)

Lemma lower_char_dot c : Ascii.eqb (Py.lower_char c) "." = Ascii.eqb c ".".
Proof. by destruct c as [[] [] [] [] [] [] [] []]. Qed.

Lemma contains_lower v : Py.contains "." (Py.lower v) = Py.contains "." v.
Proof.
  unfold Py.lower. induction v as [|c v IH]; [done|].
  simpl. by rewrite lower_char_dot, IH.
Qed.

Lemma split1_at_first c s :
  Py.contains c s = true →
  ∃ before after, Py.split1 c s = [before; after] ∧
    s = before +:+ String c after ∧ Py.contains c before = false.
Proof.
  induction s as [|d s IH]; simpl; [done|].
  destruct (Ascii.eqb_spec d c) as [->|Hne]; simpl.
  - intros _. by exists "", s.
  - intros (before & after & -> & -> & Hb)%IH.
    exists (String d before), after. simpl.
    split; [done|]. split; [done|].
    by apply Ascii.eqb_neq in Hne as ->.
Qed.

Lemma split_head_before c before after :
  Py.contains c before = false →
  Py.split_head c (before +:+ String c after) = before.
Proof.
  induction before as [|d before IH]; simpl.
  - intros _. by rewrite Ascii.eqb_refl.
  - intros [Hd Hb]%orb_false_iff. rewrite Hd. by rewrite IH.
Qed.

(** The unpacking [table_name, col_name = v.lower().split('.', 1)] never
    fails under its guard ['.' in v]: the text splits at its first dot. *)
Theorem qualified_total v :
  Py.contains "." v = true →
  ∃ tname col_name, qualified v = Some (tname, col_name) ∧
    Py.lower v = tname +:+ "." +:+ col_name ∧ Py.contains "." tname = false.
Proof.
  intros Hdot. unfold qualified. rewrite Hdot.
  rewrite <- contains_lower in Hdot.
  destruct (split1_at_first _ _ Hdot) as (before & after & -> & Hv & Hb).
  exists before, after. by rewrite Hv.
Qed.

Lemma qualified_total_witness :
  ∃ tname col_name, qualified "Users.Removed_Flag" = Some (tname, col_name) ∧
    Py.lower "Users.Removed_Flag" = tname +:+ "." +:+ col_name ∧
    Py.contains "." tname = false.
Proof. apply (qualified_total "Users.Removed_Flag"). reflexivity. Defined.

(** The entry of [table_columns_info] for an invalid column lists the
    columns of that column's own table. *)
Theorem table_columns_entry_own_table tables tname col_name :
  Py.contains "." tname = false →
  table_columns_entry tables (tname +:+ "." +:+ col_name) =
    (λ info, tname +:+ " table: " +:+ Py.join ", " (fst <$> columns info)) <$>
      find_table tables tname.
Proof.
  intros Hb. unfold table_columns_entry.
  change (tname +:+ "." +:+ col_name) with (tname +:+ String "." col_name).
  rewrite (split_head_before "." tname col_name Hb).
  by destruct (find_table tables tname).
Qed.

Lemma table_columns_entry_own_table_witness :
  table_columns_entry [users; incidents] ("users" +:+ "." +:+ "removed_flag") =
    (λ info, "users" +:+ " table: " +:+ Py.join ", " (fst <$> columns info)) <$>
      find_table [users; incidents] "users".
Proof. apply (table_columns_entry_own_table [users; incidents] "users"). reflexivity. Defined.

(** ** The columns that the walk collects *)





(** ** Sorting and the iteration order *)

(** [sorted(valid_tables)] is the same list under every iteration order
    of the set. *)
Theorem sorted_any_order (iter_names : gset string → list string) (X : gset string) :
  iter_names X ≡ₚ elements X →
  Py.sorted (iter_names X) = Py.sorted (elements X).
Proof.
  intros Hperm. unfold Py.sorted.
  apply (Sorted_unique String.le); try apply _.
  - apply Sorted_merge_sort, _.
  - apply Sorted_merge_sort, _.
  - by rewrite !merge_sort_Permutation.
Qed.

Lemma sorted_any_order_witness :
  Py.sorted (seed_b (valid_table_names [users; incidents])) =
  Py.sorted (elements (valid_table_names [users; incidents])).
Proof. apply (sorted_any_order seed_b), seed_b_perm. Defined.

(** ** When a statement is reported valid *)



(** * The question before it reaches the generator *)

(** ** Blanks and words *)

Lemma app_empty_r s : s +:+ "" = s.
Proof. induction s as [|c s IH]; [done|]. by rewrite app_String, IH. Qed.

Lemma app_assoc_str a b c : (a +:+ b) +:+ c = a +:+ b +:+ c.
Proof. induction a as [|x a IH]; [done|]. by rewrite !app_String, IH. Qed.

Lemma length_app_str a b : String.length (a +:+ b) = String.length a + String.length b.
Proof. induction a as [|x a IH]; [done|]. rewrite app_String. simpl. by rewrite IH. Qed.

Lemma word_char_not_space c : Py.is_word c = true → PyText.is_space c = false.
Proof. by destruct c as [[] [] [] [] [] [] [] []]. Qed.

Lemma all_chars_app p a b :
  PyText.all_chars p (a +:+ b) = PyText.all_chars p a && PyText.all_chars p b.
Proof.
  induction a as [|c a IH]; [done|]. rewrite app_String. simpl.
  by rewrite IH, andb_assoc.
Qed.

Lemma all_chars_impl (p q : ascii → bool) s :
  (∀ c, p c = true → q c = true) →
  PyText.all_chars p s = true → PyText.all_chars q s = true.
Proof.
  intros Hpq. induction s as [|c s IH]; [done|]. simpl.
  intros [Hc Hs]%andb_true_iff. by rewrite (Hpq c Hc), IH.
Qed.

(** How [split] reads a text: it skips a blank, and otherwise takes the
    word up to the next blank and goes on behind it. *)
Lemma split_unfold s :
  match s with
  | EmptyString => PyText.split s = []
  | String c s' =>
      if PyText.is_space c then PyText.split s = PyText.split s'
      else ∃ w post, s = w +:+ post ∧ is_token w ∧ blank_ahead post = true ∧
             PyText.split s = w :: PyText.split post
  end.
Proof.
  induction s as [|c s' IH]; [done|].
  destruct (PyText.is_space c) eqn:Hc.
  { simpl. by rewrite Hc. }
  destruct s' as [|c' s''].
  { exists (String c ""), "". split; [done|].
    split; [split; [done | simpl; by rewrite Hc]|].
    split; [done|]. simpl. by rewrite Hc. }
  destruct (PyText.is_space c') eqn:Hc'.
  { exists (String c ""), (String c' s''). split; [done|].
    split; [split; [done | simpl; by rewrite Hc]|].
    split; [unfold blank_ahead; simpl; by rewrite Hc'|].
    simpl. by rewrite Hc, Hc'. }
  destruct IH as (w & post & Hs & [Hne Hw] & Hpost & Hsplit).
  assert (PyText.split (String c (String c' s'')) =
          match PyText.split (String c' s'') with
          | w :: ws => String c w :: ws
          | [] => [String c ""]
          end) as Heq.
  { simpl. by rewrite Hc, Hc'. }
  rewrite Heq, Hsplit. exists (String c w), post. rewrite app_String, <- Hs.
  split; [done|]. split; [split; [done | simpl; by rewrite Hc, Hw]|]. done.
Qed.

Lemma split_tokens s : Forall is_token (PyText.split s).
Proof.
  induction s as [s IH] using (induction_ltof1 _ String.length). unfold ltof in IH.
  pose proof (split_unfold s) as Hs. destruct s as [|c s']; [by rewrite Hs|].
  destruct (PyText.is_space c).
  - rewrite Hs. apply IH. simpl. lia.
  - destruct Hs as (w & post & Heq & Hw & Hpost & ->).
    constructor; [done|]. apply IH. rewrite Heq, length_app_str.
    destruct Hw as [Hne _]. destruct w; [done|]. simpl. lia.
Qed.

Lemma split_chars p s :
  PyText.all_chars p s = true → Forall (λ w, PyText.all_chars p w = true) (PyText.split s).
Proof.
  induction s as [s IH] using (induction_ltof1 _ String.length). unfold ltof in IH.
  pose proof (split_unfold s) as Hs. destruct s as [|c s']; [by rewrite Hs|].
  intros Hall. destruct (PyText.is_space c).
  - rewrite Hs. apply IH; [simpl; lia|]. simpl in Hall. by apply andb_true_iff in Hall as [_ ?].
  - destruct Hs as (w & post & Heq & Hw & Hpost & ->).
    rewrite Heq, all_chars_app in Hall. apply andb_true_iff in Hall as [H1 H2].
    constructor; [done|]. apply IH; [|done]. rewrite Heq, length_app_str.
    destruct Hw as [Hne _]. destruct w; [done|]. simpl. lia.
Qed.

(** A word followed by a blank or by the end is the next item. *)
Lemma split_token_app w post :
  is_token w → blank_ahead post = true →
  PyText.split (w +:+ post) = w :: PyText.split post.
Proof.
  intros [Hne Hw] Hpost. induction w as [|c w IH]; [done|].
  simpl in Hw. apply andb_true_iff in Hw as [Hc Hw]. apply negb_true_iff in Hc.
  rewrite app_String. destruct w as [|c' w'].
  - rewrite app_empty_l. destruct post as [|d post'].
    + simpl. by rewrite Hc.
    + unfold blank_ahead in Hpost. simpl in Hpost. simpl. by rewrite Hc, Hpost.
  - assert (PyText.split (String c' w' +:+ post) = String c' w' :: PyText.split post) as Hrec
      by by apply IH.
    simpl in Hw. apply andb_true_iff in Hw as [Hc' _]. apply negb_true_iff in Hc'.
    rewrite app_String in *.
    assert (PyText.split (String c (String c' (w' +:+ post))) =
            match PyText.split (String c' (w' +:+ post)) with
            | w :: ws => String c w :: ws
            | [] => [String c ""]
            end) as -> by (simpl; by rewrite Hc, Hc').
    by rewrite Hrec.
Qed.

Lemma split_token w : is_token w → PyText.split w = [w].
Proof. intros Hw. rewrite <- (app_empty_r w) at 1. by rewrite split_token_app. Qed.

(** Splitting what [' '.join] put together gives the words back. *)
Lemma split_join ws :
  Forall is_token ws → PyText.split (Py.join " " ws) = ws.
Proof.
  induction 1 as [|w ws Hw Hws IH]; [done|].
  destruct ws as [|w' ws'].
  - by apply split_token.
  - change (Py.join " " (w :: w' :: ws')) with (w +:+ " " +:+ Py.join " " (w' :: ws')).
    rewrite split_token_app; [|done|done].
    change (" " +:+ Py.join " " (w' :: ws')) with (String " " (Py.join " " (w' :: ws'))).
    assert (PyText.split (String " " (Py.join " " (w' :: ws'))) =
            PyText.split (Py.join " " (w' :: ws'))) as -> by done.
    by rewrite IH.
Qed.

Lemma head_char_app a b :
  Py.head_char (a +:+ b) = match Py.head_char a with Some c => Some c | None => Py.head_char b end.
Proof. by destruct a. Qed.

Lemma split_nonempty s :
  blank_ahead s = false → PyText.split s ≠ [].
Proof.
  pose proof (split_unfold s) as Hs. destruct s as [|c s']; [done|].
  intros Hb. assert (PyText.is_space c = false) as Hc by done.
  rewrite Hc in Hs. destruct Hs as (w & post & _ & _ & _ & Heq). by rewrite Heq.
Qed.

Lemma token_last_not_blank w o :
  is_token w → from_option PyText.is_space true (Py.last_char o w) = false.
Proof.
  intros [Hne Hw]. revert o. induction w as [|a w IHw]; [done|]. intros o.
  simpl in Hw. apply andb_true_iff in Hw as [Ha Hw]. destruct w as [|b w'].
  - simpl. by apply negb_true_iff in Ha.
  - exact (IHw ltac:(done) Hw (Some a)).
Qed.

(** Behind a blank, splitting starts afresh. *)
Lemma split_app_blank pre x :
  blank_behind pre = true →
  PyText.split (pre +:+ x) = PyText.split pre ++ PyText.split x.
Proof.
  induction pre as [pre IH] using (induction_ltof1 _ String.length). unfold ltof in IH.
  intros Hpre. pose proof (split_unfold pre) as Hs.
  destruct pre as [|c pre']; [done|].
  destruct (PyText.is_space c) eqn:Hc.
  - rewrite Hs, app_String.
    assert (PyText.split (String c (pre' +:+ x)) = PyText.split (pre' +:+ x)) as ->
      by (simpl; by rewrite Hc).
    apply IH; [simpl; lia|].
    destruct pre'; [done|]. done.
  - destruct Hs as (w & post & Heq & Hw & Hpost & ->).
    assert (String.length post < String.length (String c pre')) as Hlen.
    { rewrite Heq, length_app_str. destruct Hw as [Hne _]. destruct w; [done|]. simpl. lia. }
    destruct post as [|d post'].
    { exfalso. rewrite app_empty_r in Heq. rewrite Heq in Hpre.
      unfold blank_behind in Hpre. by rewrite token_last_not_blank in Hpre. }
    assert (blank_behind (String d post') = true) as Hpb.
    { unfold blank_behind in *. rewrite Heq, last_char_app in Hpre.
      by rewrite (last_char_String _ None) in Hpre. }
    rewrite Heq, app_assoc_str, split_token_app; [|done|done].
    by rewrite (IH _ Hlen Hpb).
Qed.

(** The items of [split] are the words of the text: the stretches free
    of blanks with a blank, or an end of the text, on either side. *)
Lemma elem_of_split w s :
  w ∈ PyText.split s ↔
  ∃ pre post, s = pre +:+ w +:+ post ∧ is_token w ∧
    blank_behind pre = true ∧ blank_ahead post = true.
Proof.
  split.
  - induction s as [s IH] using (induction_ltof1 _ String.length). unfold ltof in IH.
    pose proof (split_unfold s) as Hs. destruct s as [|c s']; [by rewrite Hs; intros ?%elem_of_nil|].
    destruct (PyText.is_space c) eqn:Hc.
    + rewrite Hs. intros (pre & post & -> & Hw & Hpre & Hpost)%IH; [|simpl; lia].
      exists (String c pre), post. rewrite app_String. split; [done|]. split; [done|].
      split; [|done]. destruct pre; [|done]. unfold blank_behind. simpl. done.
    + destruct Hs as (w0 & post0 & Heq & Hw0 & Hpost0 & ->).
      intros [->|Hin]%elem_of_cons.
      * exists "", post0. rewrite app_empty_l. done.
      * apply IH in Hin as (pre & post & Hp & Hw & Hpre & Hpost).
        2:{ rewrite Heq, length_app_str. destruct Hw0 as [Hne _]. destruct w0; [done|]. simpl. lia. }
        exists (w0 +:+ pre), post. rewrite app_assoc_str, <- Hp. split; [done|]. split; [done|].
        split; [|done]. unfold blank_behind in *. rewrite last_char_app.
        destruct pre as [|d pre']; [|by rewrite (last_char_String _ None)].
        exfalso. rewrite app_empty_l in Hp. rewrite Hp in Hpost0.
        destruct Hw as [Hne Hw]. destruct w as [|a w']; [done|].
        unfold blank_ahead in Hpost0. rewrite app_String in Hpost0. simpl in Hpost0, Hw.
        apply andb_true_iff in Hw as [Ha _]. by rewrite Hpost0 in Ha.
  - intros (pre & post & -> & Hw & Hpre & Hpost).
    rewrite split_app_blank, split_token_app by done.
    rewrite elem_of_app, elem_of_cons. auto.
Qed.

(** ** Clean text *)

Lemma all_chars_map p f s :
  PyText.all_chars p (Py.map_str f s) = PyText.all_chars (λ c, p (f c)) s.
Proof. induction s as [|c s IH]; [done|]. simpl. by rewrite IH. Qed.

Lemma all_chars_lstrip p s :
  PyText.all_chars p s = true → PyText.all_chars p (PyText.lstrip s) = true.
Proof.
  induction s as [|c s IH]; [done|]. simpl. intros H.
  destruct (PyText.is_space c); [|done]. apply IH.
  by apply andb_true_iff in H as [_ ?].
Qed.

Lemma all_chars_rstrip p s :
  PyText.all_chars p s = true → PyText.all_chars p (PyText.rstrip s) = true.
Proof.
  induction s as [|c s IH]; [done|]. simpl. intros [Hc Hs]%andb_true_iff.
  specialize (IH Hs). destruct (PyText.rstrip s) as [|d r].
  - destruct (PyText.is_space c); [done|]. simpl. by rewrite Hc.
  - simpl in *. by rewrite Hc, IH.
Qed.

Lemma lower_char_not_upper c : Py.is_upper (Py.lower_char c) = false.
Proof. by destruct c as [[] [] [] [] [] [] [] []]. Qed.

Lemma space_not_upper c : PyText.is_space c = true → Py.is_upper c = false.
Proof. by destruct c as [[] [] [] [] [] [] [] []]. Qed.

(** The text that is split into words holds only plain characters and
    blanks. *)
Lemma cleaned_chars query :
  PyText.all_chars (λ c, plain_char c || PyText.is_space c)
    (PyText.sub_punctuation (PyText.strip (Py.lower query))) = true.
Proof.
  unfold PyText.sub_punctuation. rewrite all_chars_map.
  apply (all_chars_impl (λ c, negb (Py.is_upper c))).
  - intros c Hc. unfold plain_char.
    destruct (Py.is_word c) eqn:Hw; simpl; [by rewrite Hw, Hc|].
    destruct (PyText.is_space c) eqn:Hs; simpl; [by rewrite Hs, orb_true_r | done].
  - unfold PyText.strip. apply all_chars_rstrip, all_chars_lstrip.
    unfold Py.lower. rewrite all_chars_map.
    induction query as [|c s IH]; [done|]. simpl. by rewrite lower_char_not_upper, IH.
Qed.

Lemma Forall_plain_split query :
  Forall (λ w, plain_word w = true)
    (PyText.split (PyText.sub_punctuation (PyText.strip (Py.lower query)))).
Proof.
  pose proof (split_tokens (PyText.sub_punctuation (PyText.strip (Py.lower query)))) as Ht.
  pose proof (split_chars _ _ (cleaned_chars query)) as Hc.
  rewrite Forall_forall in *. intros w Hw.
  destruct (Ht w Hw) as [Hne Hns]. specialize (Hc w Hw). simpl in Hc.
  unfold plain_word. apply andb_true_iff. split.
  - apply negb_true_iff. by apply String.eqb_neq.
  - clear -Hns Hc. induction w as [|c w IH]; [done|]. simpl in *.
    apply andb_true_iff in Hns as [H1 H2]. apply andb_true_iff in Hc as [H3 H4].
    rewrite IH by done. apply negb_true_iff in H1. rewrite H1, orb_false_r in H3.
    by rewrite H3.
Qed.

Lemma plain_word_token w : plain_word w = true → is_token w.
Proof.
  unfold plain_word. intros [Hne Hw]%andb_true_iff. split.
  - apply negb_true_iff in Hne. by apply String.eqb_neq.
  - apply (all_chars_impl plain_char); [|done].
    intros c [Hc _]%andb_true_iff. apply negb_true_iff. by apply word_char_not_space.
Qed.

Lemma all_chars_join p ws :
  p " "%char = true → Forall (λ w, PyText.all_chars p w = true) ws →
  PyText.all_chars p (Py.join " " ws) = true.
Proof.
  intros Hsp. induction 1 as [|w ws Hw Hws IH]; [done|].
  destruct ws as [|w' ws']; [done|].
  change (Py.join " " (w :: w' :: ws')) with (w +:+ " " +:+ Py.join " " (w' :: ws')).
  rewrite !all_chars_app, Hw, IH. simpl. by rewrite Hsp.
Qed.

(** The words of the cleaned question are those of the text it was
    joined from. *)
Lemma split_clean_query query :
  PyText.split (clean_query query) =
  PyText.split (PyText.sub_punctuation (PyText.strip (Py.lower query))).
Proof.
  unfold clean_query. apply split_join.
  eapply Forall_impl; [apply Forall_plain_split|]. apply plain_word_token.
Qed.

Lemma clean_query_chars query :
  PyText.all_chars query_char (clean_query query) = true.
Proof.
  unfold clean_query. apply all_chars_join; [done|].
  eapply Forall_impl; [apply Forall_plain_split|].
  intros w [_ Hw]%andb_true_iff. apply (all_chars_impl plain_char); [|done].
  intros c Hc. unfold query_char. by rewrite Hc.
Qed.

Lemma Forall_plain_clean query :
  Forall (λ w, plain_word w = true) (PyText.split (clean_query query)).
Proof. rewrite split_clean_query. apply Forall_plain_split. Qed.

(** ** Words and whole-word occurrences *)

Lemma all_chars_head p s c :
  PyText.all_chars p s = true → Py.head_char s = Some c → p c = true.
Proof. destruct s; [done|]. simpl. intros [H _]%andb_true_iff [= ->]. done. Qed.

Lemma all_chars_last p s o c :
  PyText.all_chars p s = true → Py.last_char o s = Some c →
  o = Some c ∧ s = "" ∨ p c = true.
Proof.
  revert o. induction s as [|d s IH]; intros o; [auto|].
  simpl. intros [Hd Hs]%andb_true_iff Hl.
  destruct (IH _ Hs Hl) as [[[= ->] _]|]; auto.
Qed.

Lemma plain_word_delimited w : plain_word w = true → word_delimited w.
Proof.
  intros [Hne Hw]%andb_true_iff. apply negb_true_iff, String.eqb_neq in Hne.
  assert (PyText.all_chars Py.is_word w = true) as Hword.
  { apply (all_chars_impl plain_char); [|done]. by intros c [? _]%andb_true_iff. }
  split.
  - destruct w; [done|]. simpl in *. by apply andb_true_iff in Hword as [? _].
  - destruct (Py.last_char None w) as [c|] eqn:Hl.
    + destruct (all_chars_last _ _ _ _ Hword Hl) as [[? _]|]; done.
    + destruct w as [|a w']; [done|]. exfalso. clear -Hl. simpl in Hl.
      revert Hl. generalize a. induction w' as [|b w' IH]; [done|]. intros a'. apply IH.
Qed.

(** In a text of plain characters and blanks, a plain word occurs as a
    whole word exactly when it is one of the words of the text. *)
Lemma occurs_iff_word w s :
  PyText.all_chars (λ c, plain_char c || PyText.is_space c) s = true →
  plain_word w = true →
  occurs_as_whole_word w s ↔ w ∈ PyText.split s.
Proof.
  intros Hs Hw. rewrite elem_of_split. split.
  - intros (pre & post & -> & Hpre & Hpost). exists pre, post.
    rewrite !all_chars_app in Hs. apply andb_true_iff in Hs as [Hs1 Hs2].
    apply andb_true_iff in Hs2 as [_ Hs2].
    split; [done|]. split; [by apply plain_word_token|]. split.
    + unfold blank_behind. destruct (Py.last_char None pre) as [c|] eqn:Hl; [|done].
      destruct (all_chars_last _ _ _ _ Hs1 Hl) as [[? _]|Hc]; [done|].
      simpl in *. unfold plain_char in Hc. rewrite Hpre in Hc. done.
    + unfold blank_ahead. destruct (Py.head_char post) as [c|] eqn:Hh; [|done].
      pose proof (all_chars_head _ _ _ Hs2 Hh) as Hc.
      simpl in *. unfold plain_char in Hc. rewrite Hpost in Hc. done.
  - intros (pre & post & -> & _ & Hpre & Hpost). exists pre, post.
    split; [done|]. split.
    + unfold blank_behind in Hpre. destruct (Py.last_char None pre) as [c|]; [|done].
      simpl in *. destruct (Py.is_word c) eqn:Hc; [|done].
      by rewrite (word_char_not_space c Hc) in Hpre.
    + unfold blank_ahead in Hpost. destruct (Py.head_char post) as [c|]; [|done].
      simpl in *. destruct (Py.is_word c) eqn:Hc; [|done].
      by rewrite (word_char_not_space c Hc) in Hpost.
Qed.

Lemma clean_query_blank_chars query :
  PyText.all_chars (λ c, plain_char c || PyText.is_space c) (clean_query query) = true.
Proof.
  apply (all_chars_impl query_char); [|apply clean_query_chars].
  intros c [Hc | Hc]%orb_true_iff; [by rewrite Hc|].
  apply Ascii.eqb_eq in Hc as ->. done.
Qed.

(** ** Searching for one of several words *)

Lemma search_alt_from_Some prev alts s a :
  PyText.search_alt_from prev alts s = Some a →
  a ∈ alts ∧ Py.search_word_from prev a s = true.
Proof.
  revert prev. induction s as [|c s IH]; intros prev; simpl;
    unfold PyText.match_alt_here;
    destruct (List.find _ alts) as [b|] eqn:Hf.
  - intros [= ->]. apply List.find_some in Hf as [Hin%list_elem_of_In Hm].
    by rewrite Hm.
  - done.
  - intros [= ->]. apply List.find_some in Hf as [Hin%list_elem_of_In Hm].
    by rewrite Hm.
  - intros [Hin Hs]%IH. by rewrite Hs, orb_true_r.
Qed.

Lemma search_alt_from_None prev alts s :
  PyText.search_alt_from prev alts s = None ↔
  ∀ a, a ∈ alts → Py.search_word_from prev a s = false.
Proof.
  revert prev. induction s as [|c s IH]; intros prev; simpl;
    unfold PyText.match_alt_here;
    destruct (List.find _ alts) as [b|] eqn:Hf.
  - split; [done|]. intros H.
    apply List.find_some in Hf as [Hin%list_elem_of_In Hm].
    specialize (H b Hin). by rewrite Hm in H.
  - split; [|done]. intros _ a Hin%list_elem_of_In.
    by rewrite (List.find_none _ _ Hf a Hin).
  - split; [done|]. intros H.
    apply List.find_some in Hf as [Hin%list_elem_of_In Hm].
    specialize (H b Hin). by rewrite Hm in H.
  - rewrite IH. split.
    + intros H a Hin. rewrite (H a Hin), orb_false_r.
      apply list_elem_of_In in Hin. apply (List.find_none _ _ Hf a Hin).
    + intros H a Hin. specialize (H a Hin). by apply orb_false_iff in H as [_ ?].
Qed.

(** On a cleaned question, the search finds a word of the list that is a
    word of the question, and finds nothing only when there is none. *)
Lemma search_alt_clean alts query :
  Forall (λ a, plain_word a = true) alts →
  match PyText.search_alt alts (clean_query query) with
  | Some a => a ∈ alts ∧ a ∈ PyText.split (clean_query query)
  | None => ∀ a, a ∈ alts → a ∉ PyText.split (clean_query query)
  end.
Proof.
  intros Halts. rewrite Forall_forall in Halts. unfold PyText.search_alt.
  destruct (PyText.search_alt_from None alts (clean_query query)) as [a|] eqn:Hs.
  - apply search_alt_from_Some in Hs as [Hin Hs]. split; [done|].
    apply occurs_iff_word; [apply clean_query_blank_chars | by apply Halts|].
    apply search_word_spec; [|done]. by apply plain_word_delimited, Halts.
  - intros a Hin Hw. rewrite search_alt_from_None in Hs. specialize (Hs a Hin).
    apply occurs_iff_word in Hw; [|apply clean_query_blank_chars | by apply Halts].
    apply search_word_spec in Hw; [|by apply plain_word_delimited, Halts].
    unfold Py.search_word in Hw. congruence.
Qed.

(** ** Searching for a head and, further on, a tail *)

Lemma dotstar_then_spec t prev s :
  word_delimited t →
  PyText.dotstar_then t prev s = true ↔
  ∃ mid post, s = mid +:+ t +:+ post ∧
    Py.contains PyText.newline mid = false ∧
    Py.is_word_at (Py.head_char post) = false.
Proof.
  intros [Hhead Hlast].
  assert (∀ o, Py.is_word_at (Py.last_char o t) = true) as Hl.
  { intros o. destruct t; [done|]. by rewrite (last_char_String o None). }
  revert prev. induction s as [|c s IH]; intros prev; simpl.
  - rewrite orb_false_r. split.
    + destruct (Py.strip_prefix t "") as [rest|] eqn:Hp; [|done].
      apply strip_prefix_Some in Hp. unfold Py.word_boundary. rewrite Hl.
      intros Hb. exists "", rest. rewrite app_empty_l. split; [done|]. split; [done|].
      by destruct (Py.is_word_at (Py.head_char rest)).
    + intros (mid & post & Heq & _ & Hpost).
      destruct mid; [|by rewrite app_String in Heq]. rewrite app_empty_l in Heq.
      apply strip_prefix_Some in Heq. rewrite Heq.
      unfold Py.word_boundary. by rewrite Hl, Hpost.
  - rewrite orb_true_iff, andb_true_iff, IH. split.
    + intros [Hm | [Hc (mid & post & -> & Hmid & Hpost)]].
      * destruct (Py.strip_prefix t (String c s)) as [rest|] eqn:Hp; [|done].
        apply strip_prefix_Some in Hp. unfold Py.word_boundary in Hm. rewrite Hl in Hm.
        exists "", rest. rewrite app_empty_l. split; [done|]. split; [done|].
        by destruct (Py.is_word_at (Py.head_char rest)).
      * exists (String c mid), post. rewrite app_String. split; [done|]. split; [|done].
        simpl. apply negb_true_iff in Hc. by rewrite Hc.
    + intros (mid & post & Heq & Hmid & Hpost). destruct mid as [|d mid].
      * left. rewrite app_empty_l in Heq. apply strip_prefix_Some in Heq.
        rewrite Heq. unfold Py.word_boundary. by rewrite Hl, Hpost.
      * right. rewrite app_String in Heq. injection Heq as <- ->.
        simpl in Hmid. apply orb_false_iff in Hmid as [Hd Hmid].
        split; [by rewrite Hd|]. by exists mid, post.
Qed.

Lemma match_between_here_spec h t prev s :
  word_delimited h → word_delimited t →
  PyText.match_between_here prev h t s = true ↔
  Py.is_word_at prev = false ∧
  ∃ mid post, s = h +:+ mid +:+ t +:+ post ∧
    Py.contains PyText.newline mid = false ∧
    Py.is_word_at (Py.head_char post) = false.
Proof.
  intros Hh Ht. unfold PyText.match_between_here. rewrite andb_true_iff.
  destruct (kw_nonempty h Hh) as (k & h' & -> & Hk). split.
  - intros [Hb Hm].
    destruct (Py.strip_prefix (String k h') s) as [rest|] eqn:Hp; [|done].
    apply strip_prefix_Some in Hp. subst s.
    apply dotstar_then_spec in Hm as (mid & post & -> & Hmid & Hpost); [|done].
    rewrite head_char_app_String in Hb. unfold Py.word_boundary in Hb. simpl in Hb.
    rewrite Hk in Hb. split; [by destruct (Py.is_word_at prev)|]. by exists mid, post.
  - intros [Hp (mid & post & -> & Hmid & Hpost)].
    assert (Py.strip_prefix (String k h') (String k h' +:+ mid +:+ t +:+ post)
            = Some (mid +:+ t +:+ post)) as -> by by apply strip_prefix_Some.
    split.
    + rewrite head_char_app_String. unfold Py.word_boundary. simpl. by rewrite Hk, Hp.
    + apply dotstar_then_spec; [done|]. by exists mid, post.
Qed.

Lemma search_between_from_spec hs t prev s :
  Forall word_delimited hs → word_delimited t →
  PyText.search_between_from prev hs t s = true ↔
  ∃ h pre mid post, h ∈ hs ∧ s = pre +:+ h +:+ mid +:+ t +:+ post ∧
    Py.is_word_at (Py.last_char prev pre) = false ∧
    Py.contains PyText.newline mid = false ∧
    Py.is_word_at (Py.head_char post) = false.
Proof.
  intros Hhs Ht. rewrite Forall_forall in Hhs.
  assert (∀ prev s, existsb (λ h, PyText.match_between_here prev h t s) hs = true ↔
            ∃ h, h ∈ hs ∧ Py.is_word_at prev = false ∧
              ∃ mid post, s = h +:+ mid +:+ t +:+ post ∧
                Py.contains PyText.newline mid = false ∧
                Py.is_word_at (Py.head_char post) = false) as Hhere.
  { intros p u. rewrite existsb_exists. split.
    - intros (h & Hin%list_elem_of_In & Hm). exists h. split; [done|].
      by apply match_between_here_spec; [apply Hhs|..].
    - intros (h & Hin & Hm). exists h. split; [by apply list_elem_of_In|].
      by apply match_between_here_spec; [apply Hhs|..]. }
  revert prev. induction s as [|c s IH]; intros prev; simpl;
    rewrite orb_true_iff, Hhere.
  - split.
    + intros [(h & Hin & Hp & mid & post & Hs & Hmid & Hpost) | ?]; [|done].
      exists h, "", mid, post. by rewrite app_empty_l.
    + intros (h & pre & mid & post & Hin & Hs & Hp & Hmid & Hpost). left.
      destruct pre; [|by rewrite app_String in Hs]. rewrite app_empty_l in Hs.
      exists h. split; [done|]. split; [done|]. by exists mid, post.
  - rewrite IH. split.
    + intros [(h & Hin & Hp & mid & post & Hs & Hmid & Hpost)
             | (h & pre & mid & post & Hin & Hs & Hp & Hmid & Hpost)].
      * exists h, "", mid, post. by rewrite app_empty_l.
      * exists h, (String c pre), mid, post. rewrite app_String, Hs. done.
    + intros (h & pre & mid & post & Hin & Hs & Hp & Hmid & Hpost).
      destruct pre as [|d pre].
      * left. rewrite app_empty_l in Hs. exists h. split; [done|]. split; [done|].
        by exists mid, post.
      * right. rewrite app_String in Hs. injection Hs as -> Hs.
        by exists h, pre, mid, post.
Qed.

Lemma search_between_spec hs t s :
  Forall word_delimited hs → word_delimited t →
  PyText.search_between hs t s = true ↔ ∃ h, h ∈ hs ∧ occurs_between h t s.
Proof.
  intros Hhs Ht. unfold PyText.search_between, occurs_between.
  rewrite search_between_from_spec by done. split.
  - intros (h & pre & mid & post & ?). exists h. split; [tauto|]. exists pre, mid, post. tauto.
  - intros (h & Hin & pre & mid & post & ?). exists h, pre, mid, post. tauto.
Qed.

(** ** [preprocess_query] *)

Lemma synonyms_values_plain w v : synonyms !! w = Some v → plain_word v = true.
Proof.
  unfold synonyms. intros H%elem_of_list_to_map_2.
  rewrite !elem_of_cons, elem_of_nil in H.
  repeat destruct H as [[= -> ->] | H]; done.
Qed.

Lemma preprocess_query_Processed table query q p d :
  preprocess_query table query = Processed q p d →
  asks_unavailable (clean_query query) = false ∧
  q = Py.join " " (replace_synonyms table (PyText.split (clean_query query))) ∧
  detect_dml (clean_query query) = (p, d).
Proof.
  unfold preprocess_query. destruct (detect_dml _) as [p' d'].
  destruct (asks_unavailable _); [done|]. by intros [= <- <- <-].
Qed.

(** The question handed on to the SQL generator is sanitized: words
    of lower-case letters, digits and underscores, separated by single
    spaces, so no quote or other punctuation of the user reaches the
    prompt. *)
Theorem preprocess_query_sanitized query q p d :
  preprocess_query synonyms query = Processed q p d →
  (∃ ws, q = Py.join " " ws ∧ PyText.split q = ws ∧
     Forall (λ w, plain_word w = true) ws) ∧
  PyText.all_chars query_char q = true.
Proof.
  intros (_ & -> & _)%preprocess_query_Processed.
  assert (Forall (λ w, plain_word w = true)
            (replace_synonyms synonyms (PyText.split (clean_query query)))) as Hws.
  { unfold replace_synonyms. apply Forall_fmap.
    eapply Forall_impl; [apply Forall_plain_clean|]. intros w Hw. simpl.
    destruct (synonyms !! w) as [v|] eqn:Hv; [by apply synonyms_values_plain in Hv | done]. }
  split.
  - eexists. split; [done|]. split; [|done]. apply split_join.
    eapply Forall_impl; [apply Hws|]. apply plain_word_token.
  - apply all_chars_join; [done|]. eapply Forall_impl; [apply Hws|].
    intros w [_ Hw]%andb_true_iff. apply (all_chars_impl plain_char); [|done].
    intros c Hc. unfold query_char. by rewrite Hc.
Qed.

Lemma preprocess_query_sanitized_witness :
  (∃ ws, "show all open incidents in departments" = Py.join " " ws ∧
     PyText.split "show all open incidents in departments" = ws ∧
     Forall (λ w, plain_word w = true) ws) ∧
  PyText.all_chars query_char "show all open incidents in departments" = true.
Proof.
  apply (preprocess_query_sanitized "  Show ALL 'open' issues, in: Dept?! " _ false []).
  vm_compute. reflexivity.
Defined.

(** A synonym whose key is not a plain word, such as
    [department head] with its blank, is never applied: the table
    behaves as if the entry were not there. *)
Theorem synonym_key_never_applies table key query :
  plain_word key = false →
  preprocess_query (delete key table) query = preprocess_query table query.
Proof.
  intros Hkey. unfold preprocess_query.
  destruct (detect_dml _) as [p d]. destruct (asks_unavailable _); [done|].
  f_equal. f_equal. unfold replace_synonyms.
  apply Forall_fmap_ext. eapply Forall_impl; [apply Forall_plain_clean|].
  intros w Hw. simpl. rewrite lookup_delete_ne; [done|]. congruence.
Qed.

Lemma synonym_key_never_applies_witness :
  preprocess_query (delete "department head" synonyms) "Who is the department head of IT?" =
  preprocess_query synonyms "Who is the department head of IT?".
Proof. apply synonym_key_never_applies. reflexivity. Defined.

Lemma unavailable_words_plain :
  Forall (λ a, plain_word a = true) unavailable_words_1 ∧
  Forall (λ a, plain_word a = true) unavailable_words_3.
Proof. split; repeat constructor. Qed.

Lemma unavailable_heads_delimited :
  Forall word_delimited unavailable_heads ∧ word_delimited "removed".
Proof. split; [repeat constructor|]; by split. Qed.

Lemma found_search_alt_clean alts query :
  Forall (λ a, plain_word a = true) alts →
  found (PyText.search_alt alts (clean_query query)) = true ↔
  ∃ w, w ∈ alts ∧ w ∈ PyText.split (clean_query query).
Proof.
  intros Halts. pose proof (search_alt_clean alts query Halts) as H.
  destruct (PyText.search_alt alts (clean_query query)) as [a|]; simpl.
  - split; [intros _; by exists a | done].
  - split; [done|]. intros (w & Hin & Hw). by destruct (H w Hin).
Qed.

(** A question is refused as unsupported exactly when one of the
    eight words about removal is a word of the cleaned question, or
    [how many], [count] or [list], starting a word, is followed further
    on by text ending in [removed] at the end of a word; the refusal
    always carries the one fixed message. *)
Theorem preprocess_query_unsupported_iff table query :
  ((∃ m, preprocess_query table query = Unsupported m) ↔
     (∃ w, w ∈ unavailable_words_1 ++ unavailable_words_3 ∧
           w ∈ PyText.split (clean_query query)) ∨
     (∃ h, h ∈ unavailable_heads ∧ occurs_between h "removed" (clean_query query))) ∧
  (∀ m, preprocess_query table query = Unsupported m → m = unavailable_message).
Proof.
  destruct unavailable_words_plain as [H1 H3].
  destruct unavailable_heads_delimited as [Hh Ht].
  assert (asks_unavailable (clean_query query) = true ↔
     (∃ w, w ∈ unavailable_words_1 ++ unavailable_words_3 ∧
           w ∈ PyText.split (clean_query query)) ∨
     (∃ h, h ∈ unavailable_heads ∧ occurs_between h "removed" (clean_query query))) as Hasks.
  { unfold asks_unavailable.
    rewrite !orb_true_iff, !found_search_alt_clean, search_between_spec by done.
    split.
    - intros [[(w & Hin & Hw) | Hb] | (w & Hin & Hw)]; [left|by right|left];
        exists w; rewrite elem_of_app; auto.
    - intros [(w & [Hin|Hin]%elem_of_app & Hw) | Hb]; eauto. }
  unfold preprocess_query. destruct (detect_dml _) as [p d].
  destruct (asks_unavailable (clean_query query)).
  - split; [|by intros m [= <-]]. split; [intros _; by apply Hasks | by eauto].
  - split; [|done]. split; [by intros [m ?] | intros H%Hasks; done].
Qed.

Lemma detect_dml_fold (f : list string → option string) p0 d0 patterns :
  foldl (λ '(possible_dml, detected_words) alts,
           match f alts with
           | Some word => (true, detected_words ++ [word])
           | None => (possible_dml, detected_words)
           end) (p0, d0) patterns =
  (p0 || negb (bool_decide (omap f patterns = [])), d0 ++ omap f patterns).
Proof.
  revert p0 d0. induction patterns as [|alts patterns IH]; intros p0 d0; simpl.
  - by rewrite orb_false_r, app_nil_r.
  - destruct (f alts) as [w|]; rewrite IH; simpl.
    + by rewrite <- app_assoc, orb_true_r.
    + done.
Qed.

Lemma elem_of_concat {A} (x : A) (ls : list (list A)) :
  x ∈ concat ls ↔ ∃ l, x ∈ l ∧ l ∈ ls.
Proof.
  rewrite list_elem_of_In, in_concat. split.
  - intros (l & Hl & Hx). exists l. by rewrite !list_elem_of_In.
  - intros (l & Hx & Hl). exists l. by rewrite <- !list_elem_of_In.
Qed.

Lemma potential_dml_patterns_plain :
  Forall (Forall (λ a, plain_word a = true)) potential_dml_patterns.
Proof. repeat constructor. Qed.

(** The DML flag of a processed question is set exactly when one of
    the fifteen listed verbs is a word of the cleaned question; the flag
    goes with a non-empty list of detected words, each of them a listed
    verb that is a word of the question.  The flag never blocks the
    question. *)
Theorem preprocess_query_dml_flag table query q p d :
  preprocess_query table query = Processed q p d →
  (p = true ↔ ∃ w, w ∈ concat potential_dml_patterns ∧
                   w ∈ PyText.split (clean_query query)) ∧
  (p = true ↔ d ≠ []) ∧
  Forall (λ w, w ∈ concat potential_dml_patterns ∧
               w ∈ PyText.split (clean_query query)) d.
Proof.
  intros (_ & _ & Hd)%preprocess_query_Processed.
  unfold detect_dml in Hd. rewrite detect_dml_fold in Hd.
  rewrite orb_false_l, app_nil_l in Hd. apply pair_equal_spec in Hd as [<- <-].
  set (f := λ alts, PyText.search_alt alts (clean_query query)).
  assert (∀ w, w ∈ omap f potential_dml_patterns →
            w ∈ concat potential_dml_patterns ∧ w ∈ PyText.split (clean_query query)) as Hsound.
  { intros w (alts & Hin & Hf)%list_elem_of_omap.
    pose proof potential_dml_patterns_plain as Hplain.
    rewrite Forall_forall in Hplain.
    pose proof (search_alt_clean alts query (Hplain alts Hin)) as Hs.
    unfold f in Hf. rewrite Hf in Hs. destruct Hs as [Hw Hsplit].
    split; [|done]. apply elem_of_concat. eauto. }
  assert (negb (bool_decide (omap f potential_dml_patterns = [])) = true ↔
          omap f potential_dml_patterns ≠ []) as Hflag.
  { rewrite negb_true_iff, bool_decide_eq_false. done. }
  split; [|split].
  - rewrite Hflag. split.
    + intros Hne. destruct (omap f potential_dml_patterns) as [|w ws] eqn:Ho; [done|].
      exists w. apply Hsound. left.
    + intros (w & (alts & Hw & Hin)%elem_of_concat & Hsplit) Hnil.
      pose proof potential_dml_patterns_plain as Hplain.
      rewrite Forall_forall in Hplain.
      pose proof (search_alt_clean alts query (Hplain alts Hin)) as Hs.
      destruct (PyText.search_alt alts (clean_query query)) as [a|] eqn:Hf.
      * assert (a ∈ omap f potential_dml_patterns) as Ha
          by (apply list_elem_of_omap; eauto).
        rewrite Hnil in Ha. by apply elem_of_nil in Ha.
      * by apply (Hs w).
  - done.
  - apply Forall_forall. apply Hsound.
Qed.

Lemma preprocess_query_dml_flag_witness :
  (true = true ↔ ∃ w, w ∈ concat potential_dml_patterns ∧
      w ∈ PyText.split (clean_query "List tickets created or updated today")) ∧
  (true = true ↔ ["created"; "updated"] ≠ []) ∧
  Forall (λ w, w ∈ concat potential_dml_patterns ∧
      w ∈ PyText.split (clean_query "List tickets created or updated today"))
    ["created"; "updated"].
Proof.
  apply (preprocess_query_dml_flag synonyms _ "list tickets created or updated today").
  vm_compute. reflexivity.
Defined.

(** * From the question to the validated statement *)

(** ** Letter case and the safety gate *)

Lemma upper_lower_char c : Py.upper_char (Py.lower_char c) = Py.upper_char c.
Proof. by destruct c as [[] [] [] [] [] [] [] []]. Qed.

Lemma upper_lower s : Py.upper (Py.lower s) = Py.upper s.
Proof.
  unfold Py.upper, Py.lower. induction s as [|c s IH]; simpl; [done|].
  by rewrite upper_lower_char, IH.
Qed.

(** Two texts that differ only in the case of their letters get the same
    verdict of the safety gate, message included. *)
Theorem check_unsafe_query_ignores_case query query' :
  Py.lower query = Py.lower query' →
  check_unsafe_query query = check_unsafe_query query'.
Proof.
  intros H. unfold check_unsafe_query.
  by rewrite <- (upper_lower query), <- (upper_lower query'), H.
Qed.

Lemma check_unsafe_query_ignores_case_witness :
  check_unsafe_query "select 1; Drop Table users" =
  check_unsafe_query "SELECT 1; dROP tABLE USERS".
Proof. apply check_unsafe_query_ignores_case. reflexivity. Defined.

(** ** Cleaning a question twice *)

Lemma map_str_id p f s :
  (∀ c, p c = true → f c = c) → PyText.all_chars p s = true → Py.map_str f s = s.
Proof.
  intros Hf. induction s as [|c s IH]; simpl; [done|].
  intros [Hc Hs]%andb_true_iff. by rewrite (Hf c Hc), IH.
Qed.

Lemma rstrip_id s :
  from_option PyText.is_space false (Py.last_char None s) = false → PyText.rstrip s = s.
Proof.
  induction s as [|c s IH]; [done|]. simpl. intros H.
  destruct s as [|d s].
  - simpl in *. by rewrite H.
  - rewrite IH; [done|]. by rewrite (last_char_String None (Some c)).
Qed.

Lemma join_last_not_blank ws o :
  ws ≠ [] → Forall is_token ws →
  from_option PyText.is_space true (Py.last_char o (Py.join " " ws)) = false.
Proof.
  revert o. induction ws as [|w ws IH]; [done|]. intros o _ Hall.
  apply Forall_cons in Hall as [Hw Hws].
  destruct ws as [|w' ws]; [by apply token_last_not_blank|].
  change (Py.join " " (w :: w' :: ws)) with (w +:+ " " +:+ Py.join " " (w' :: ws)).
  rewrite !last_char_app. by apply IH.
Qed.

Lemma strip_join ws :
  Forall is_token ws → PyText.strip (Py.join " " ws) = Py.join " " ws.
Proof.
  intros Hall. destruct ws as [|w ws]; [done|].
  unfold PyText.strip.
  assert (PyText.lstrip (Py.join " " (w :: ws)) = Py.join " " (w :: ws)) as ->.
  { pose proof (Forall_inv Hall) as [Hne Hw].
    destruct w as [|a w]; [done|]. simpl in Hw.
    apply andb_true_iff in Hw as [Ha%negb_true_iff _].
    destruct ws; simpl; by rewrite Ha. }
  apply rstrip_id.
  pose proof (join_last_not_blank (w :: ws) None ltac:(done) Hall) as H.
  by destruct (Py.last_char None _).
Qed.

(** Cleaning is idempotent: a cleaned question is left as it is. *)
Theorem clean_query_idempotent query :
  clean_query (clean_query query) = clean_query query.
Proof.
  assert (Forall is_token (PyText.split (clean_query query))) as Htok.
  { eapply Forall_impl; [apply Forall_plain_clean|]. apply plain_word_token. }
  assert (clean_query query = Py.join " " (PyText.split (clean_query query))) as Hjoin.
  { rewrite split_clean_query. reflexivity. }
  set (c := clean_query query) in *.
  assert (Py.lower c = c) as Hlower.
  { apply (map_str_id query_char); [|apply clean_query_chars].
    intros a Ha. unfold Py.lower_char.
    assert (Py.is_upper a = false) as ->; [|done].
    unfold query_char, plain_char in Ha.
    apply orb_true_iff in Ha as [[_ Ha%negb_true_iff]%andb_true_iff | ->%Ascii.eqb_eq]; done. }
  assert (PyText.strip c = c) as Hstrip.
  { rewrite Hjoin. by apply strip_join. }
  assert (PyText.sub_punctuation c = c) as Hsub.
  { apply (map_str_id query_char); [|apply clean_query_chars].
    intros a Ha. unfold query_char, plain_char in Ha.
    apply orb_true_iff in Ha as [[-> _]%andb_true_iff | ->%Ascii.eqb_eq]; done. }
  unfold clean_query at 1. fold c. rewrite Hlower, Hstrip, Hsub. by rewrite <- Hjoin.
Qed.

(** ** The schema context *)

Lemma lines_cons l ls : lines (l :: ls) = l +:+ nl +:+ lines ls.
Proof. done. Qed.

Lemma foldl_column_lines context cols :
  foldl (λ context '(col_name, col_desc),
           context +:+ "  - " +:+ col_name +:+ ": " +:+ col_desc +:+ nl)
        context cols =
  context +:+ concat_str (column_line <$> cols).
Proof.
  revert context. induction cols as [|[c d] cols IH]; intros context; simpl.
  - by rewrite app_empty_r.
  - rewrite IH. by rewrite app_assoc_str.
Qed.

Lemma foldl_table_blocks context tables :
  foldl (λ context table,
           let context := context +:+ "Table: " +:+ table_name table +:+ nl in
           let context := context +:+ "Description: " +:+ description table +:+ nl in
           let context := context +:+ "Columns:" +:+ nl in
           let context :=
             foldl (λ context '(col_name, col_desc),
                      context +:+ "  - " +:+ col_name +:+ ": " +:+ col_desc +:+ nl)
                   context (columns table) in
           context +:+ nl)
        context tables =
  context +:+ concat_str (table_block <$> tables).
Proof.
  revert context. induction tables as [|t tables IH]; intros context.
  - simpl. by rewrite app_empty_r.
  - cbn [foldl]. rewrite IH. cbv zeta. rewrite foldl_column_lines.
    cbn [fmap list_fmap concat_str foldr]. unfold table_block.
    by rewrite !app_assoc_str.
Qed.

(** The context given to the generator is the heading, then one block
    per table in schema order, each with a line for every column in
    document order, then the notes; without a schema the call raises. *)
Theorem create_schema_context_blocks schema :
  create_schema_context schema =
  match schema with
  | Some tables =>
      Return ("Database Schema:" +:+ nl +:+ nl +:+
              concat_str (table_block <$> tables) +:+ schema_notes)
  | None => Raise "'NoneType' object is not subscriptable"
  end.
Proof.
  destruct schema as [tables|]; [|done].
  unfold create_schema_context. simpl mbind. cbv zeta.
  rewrite foldl_table_blocks. by rewrite !app_assoc_str.
Qed.

(** ** Loading the schema *)

Lemma first_found_spec open_json paths :
  match first_found open_json paths with
  | Return (Some document) =>
      ∃ before path after, paths = before ++ path :: after ∧
        Forall (λ p, open_json p = FileNotFound) before ∧
        open_json path = Loaded document
  | Return None => Forall (λ p, open_json p = FileNotFound) paths
  | Raise e =>
      ∃ before path after, paths = before ++ path :: after ∧
        Forall (λ p, open_json p = FileNotFound) before ∧
        open_json path = Failed e
  end.
Proof.
  induction paths as [|path paths IH]; simpl; [done|].
  destruct (open_json path) as [document| |e] eqn:Hp.
  - by exists [], path, paths.
  - destruct (first_found open_json paths) as [[document|]|e].
    + destruct IH as (before & p & after & -> & Hb & Hl).
      exists (path :: before), p, after. split; [done|]. split; [by constructor|done].
    + by constructor.
    + destruct IH as (before & p & after & -> & Hb & Hl).
      exists (path :: before), p, after. split; [done|]. split; [by constructor|done].
  - by exists [], path, paths.
Qed.

(** The schema comes from the first path that can be opened; every path
    before it was not found.  A file that is found but fails to load
    ends the search: the paths behind it are not tried.  Each failure
    gives one message, success none. *)
Theorem load_schema_first_found open_json :
  match load_schema open_json with
  | (Some document, messages) =>
      messages = [] ∧
      ∃ before path after, schema_paths = before ++ path :: after ∧
        Forall (λ p, open_json p = FileNotFound) before ∧
        open_json path = Loaded document
  | (None, messages) =>
      (Forall (λ p, open_json p = FileNotFound) schema_paths ∧
       messages = ["Schema file not found! Tried paths: ['simple_enterprise_schema.json', './simple_enterprise_schema.json', '/Users/adityarajput/Assignment 1 /simple_enterprise_schema.json']"]) ∨
      (∃ before path after e, schema_paths = before ++ path :: after ∧
        Forall (λ p, open_json p = FileNotFound) before ∧
        open_json path = Failed e ∧
        messages = ["Error loading schema: " +:+ e])
  end.
Proof.
  unfold load_schema. pose proof (first_found_spec open_json schema_paths) as H.
  destruct (first_found open_json schema_paths) as [[document|]|e].
  - done.
  - by left.
  - right. destruct H as (before & path & after & ? & ? & ?). by exists before, path, after, e.
Qed.

(** ** The fences around an answer *)
























(** ** The generator *)



Section Pipeline.

Variable getenv : string → option string.
Variable hard_coded_key : string.
Variable configure : string → outcome unit.
Variable generate_content : string → outcome string.
Variable schema : option (list Table).
Variable iter_names : gset string → list string.
Variable iter_pairs : gset (string * string) → list (string * string).
Variable parse : string → outcome (list Statement).
Variable parse_none_error : string.

Lemma api_key_truthy :
  hard_coded_key ≠ "" →
  truthy (py_or (getenv "GEMINI_API_KEY")
                (py_or (getenv "GEMINI_API_KEY_2") (Some hard_coded_key))) = true.
Proof.
  intros Hkey. unfold py_or.
  destruct (truthy (getenv "GEMINI_API_KEY")) eqn:H1; [done|].
  destruct (truthy (getenv "GEMINI_API_KEY_2")) eqn:H2; [done|].
  by destruct hard_coded_key.
Qed.

(** The two shapes of what the generator step returns. *)
Lemma generate_sql_cases q p d :
  (∃ prompt text,
     generate_content prompt = Return text ∧
     answers_error (clean_response text) = false ∧
     generate_sql_with_gemini getenv hard_coded_key configure generate_content schema q p d
       = (Some (clean_response text), None)) ∨
  (∃ msg,
     generate_sql_with_gemini getenv hard_coded_key configure generate_content schema q p d
       = (None, Some msg) ∧
     truthy (Some msg) = true ∧
     (hard_coded_key ≠ "" → msg ≠ "Gemini API key not found.")).
Proof.
  unfold generate_sql_with_gemini, generate_sql_body.
  destruct (truthy (py_or _ _)) eqn:Hkey; simpl.
  2:{ right. eexists. split; [done|]. split; [done|].
      intros H. apply api_key_truthy in H. congruence. }
  destruct (configure _) as [[]|e]; simpl.
  2:{ right. eexists. split; [done|]. by split. }
  destruct (create_schema_context schema) as [schema_context|e]; simpl.
  2:{ right. eexists. split; [done|]. by split. }
  destruct (generate_content _) as [text|e] eqn:Htext; simpl.
  2:{ right. eexists. split; [done|]. by split. }
  destruct (answers_error (clean_response text)) eqn:Herr.
  - right. eexists. split; [done|]. by split.
  - left. by eexists _, text.
Qed.

(** The generator step returns the cleaned answer and no error, or no
    answer and an error text that is not empty; an answer that it
    returns does not read as an error.  With the key written into the
    program, the error for a missing key is never given. *)
Theorem generate_sql_with_gemini_result q p d :
  hard_coded_key ≠ "" →
  (∃ prompt text,
     generate_content prompt = Return text ∧
     answers_error (clean_response text) = false ∧
     generate_sql_with_gemini getenv hard_coded_key configure generate_content schema q p d
       = (Some (clean_response text), None)) ∨
  (∃ msg,
     generate_sql_with_gemini getenv hard_coded_key configure generate_content schema q p d
       = (None, Some msg) ∧
     msg ≠ "" ∧ msg ≠ "Gemini API key not found.").
Proof.
  intros Hkey. destruct (generate_sql_cases q p d) as [H|(msg & H & Ht & Hm)]; [by left|].
  right. exists msg. split; [done|]. split; [by destruct msg|by apply Hm].
Qed.

(** ** The pipeline *)



(** A question with one of the words for removed records is refused
    with the fixed message before any service is used: the result does
    not depend on the environment, the generator, the parser or the
    schema. *)
Theorem process_query_refuses_unavailable user_query w :
  w ∈ unavailable_words_1 ++ unavailable_words_3 →
  w ∈ PyText.split (clean_query user_query) →
  process_query getenv hard_coded_key configure generate_content schema
    iter_names iter_pairs parse parse_none_error user_query
    = Return (None, Some unavailable_message, None, None).
Proof.
  intros Hw Hin. unfold process_query, preprocess_query.
  destruct (detect_dml _) as [p d].
  assert (asks_unavailable (clean_query user_query) = true) as ->; [|done].
  unfold asks_unavailable. destruct unavailable_words_plain as [H1 H3].
  apply elem_of_app in Hw as [Hw|Hw].
  - assert (found (PyText.search_alt unavailable_words_1 (clean_query user_query)) = true)
      as ->; [|done].
    apply found_search_alt_clean; [done|]. by exists w.
  - assert (found (PyText.search_alt unavailable_words_3 (clean_query user_query)) = true)
      as ->; [|by rewrite orb_true_r].
    apply found_search_alt_clean; [done|]. by exists w.
Qed.

End Pipeline.

(** Without a schema, a question that passes preprocessing ends in the
    generator step, at the first use of the schema: the generator is
    not asked, and no SQL is validated. *)
Theorem process_query_without_schema
    (getenv : string → option string) (hard_coded_key : string)
    (configure : string → outcome unit) (generate_content : string → outcome string)
    (iter_names : gset string → list string)
    (iter_pairs : gset (string * string) → list (string * string))
    (parse : string → outcome (list Statement)) (parse_none_error : string)
    user_query q p d :
  preprocess_query synonyms user_query = Processed q p d →
  hard_coded_key ≠ "" →
  (∀ api_key, configure api_key = Return ()) →
  process_query getenv hard_coded_key configure generate_content None
    iter_names iter_pairs parse parse_none_error user_query
  = Return (None,
            Some "SQL Generation Error: Error generating SQL: 'NoneType' object is not subscriptable",
            None, None).
Proof.
  intros Hq Hkey Hconf. unfold process_query. rewrite Hq.
  unfold generate_sql_with_gemini, generate_sql_body.
  rewrite (api_key_truthy getenv hard_coded_key Hkey). simpl. by rewrite Hconf.
Qed.

Lemma generate_sql_with_gemini_result_witness :
  (∃ prompt text,
     (λ _ : string, Return ("```sql" +:+ nl +:+ "SELECT name FROM users" +:+ nl +:+ "```"))
       prompt = Return text ∧
     answers_error (clean_response text) = false ∧
     generate_sql_with_gemini (λ _, None) "key" (λ _, Return ())
       (λ _, Return ("```sql" +:+ nl +:+ "SELECT name FROM users" +:+ nl +:+ "```"))
       scenario_schema "names of users" false []
       = (Some (clean_response text), None)) ∨
  (∃ msg,
     generate_sql_with_gemini (λ _, None) "key" (λ _, Return ())
       (λ _, Return ("```sql" +:+ nl +:+ "SELECT name FROM users" +:+ nl +:+ "```"))
       scenario_schema "names of users" false []
       = (None, Some msg) ∧
     msg ≠ "" ∧ msg ≠ "Gemini API key not found.").
Proof.
  apply (generate_sql_with_gemini_result (λ _, None) "key" (λ _, Return ())
           (λ _, Return ("```sql" +:+ nl +:+ "SELECT name FROM users" +:+ nl +:+ "```"))
           scenario_schema "names of users" false []).
  discriminate.
Defined.


Lemma process_query_refuses_unavailable_witness :
  process_query (λ _, None) "key" (λ _, Raise "no network") (λ _, Raise "no network")
    None seed_a seed_a SqlparseModel.parse "" "Show the DELETED users!"
  = Return (None, Some unavailable_message, None, None).
Proof.
  apply (process_query_refuses_unavailable (λ _, None) "key" (λ _, Raise "no network")
           (λ _, Raise "no network") None seed_a seed_a SqlparseModel.parse ""
           "Show the DELETED users!" "deleted").
  - vm_compute. repeat constructor.
  - vm_compute. repeat constructor.
Defined.

Lemma process_query_without_schema_witness :
  process_query (λ _, None) "key" (λ _, Return ()) (λ _, Return "SELECT 1") None
    seed_a seed_a SqlparseModel.parse "" "Names of all employees?"
  = Return (None,
            Some "SQL Generation Error: Error generating SQL: 'NoneType' object is not subscriptable",
            None, None).
Proof.
  apply (process_query_without_schema (λ _, None) "key" (λ _, Return ()) (λ _, Return "SELECT 1")
           seed_a seed_a SqlparseModel.parse "" "Names of all employees?"
           "names of all users" false []).
  - vm_compute. reflexivity.
  - discriminate.
  - reflexivity.
Defined.

(** ** The safety gate on Unicode text *)

Lemma u_strip_prefix_Some kw s rest :
  Unicode.strip_prefix kw s = Some rest ↔ s = kw ++ rest.
Proof.
  revert s. induction kw as [|k kw IH]; intros s; simpl.
  - split; congruence.
  - destruct s as [|c s]; [split; discriminate|].
    destruct (N.eqb_spec k c) as [->|Hne].
    + rewrite IH. split; [intros ->; reflexivity | congruence].
    + split; [discriminate | congruence].
Qed.

Lemma u_last_char_app p a b :
  Unicode.last_char p (a ++ b) = Unicode.last_char (Unicode.last_char p a) b.
Proof. revert p. induction a as [|c a IH]; intros p; [reflexivity|]. simpl. apply IH. Qed.

Section UnicodeWordSearch.

Variable is_word : N → bool.
Variable kw : Unicode.str.
Hypothesis kw_delimited : Unicode.word_delimited is_word kw.

Lemma u_kw_nonempty : ∃ k kw', kw = k :: kw' ∧ is_word k = true.
Proof.
  destruct kw_delimited as [Hh _]. destruct kw as [|k kw']; [discriminate|].
  exists k, kw'. split; [reflexivity | exact Hh].
Qed.

Lemma u_match_word_here_spec prev s :
  Unicode.match_word_here is_word prev kw s = true ↔
  Unicode.is_word_at is_word prev = false ∧
  ∃ post, s = kw ++ post ∧ Unicode.is_word_at is_word (Unicode.head_char post) = false.
Proof.
  destruct u_kw_nonempty as (k & kw' & Hkw & Hk).
  destruct kw_delimited as [_ Hlast].
  assert (∀ p, Unicode.last_char p kw = Unicode.last_char None kw) as Hl.
  { intros p. by rewrite Hkw. }
  unfold Unicode.match_word_here, Unicode.word_boundary.
  rewrite andb_true_iff. split.
  - intros [Hb Hm].
    destruct (Unicode.strip_prefix kw s) as [rest|] eqn:Hs; [|discriminate].
    apply u_strip_prefix_Some in Hs. subst s.
    rewrite Hl, Hlast in Hm.
    rewrite Hkw in Hb. simpl in Hb. rewrite Hk in Hb.
    split; [by destruct (Unicode.is_word_at is_word prev)|].
    exists rest. split; [done|].
    by destruct (Unicode.is_word_at is_word (Unicode.head_char rest)).
  - intros [Hp (post & -> & Hpost)].
    assert (Unicode.strip_prefix kw (kw ++ post) = Some post) as ->
      by by apply u_strip_prefix_Some.
    rewrite Hl, Hlast, Hpost, Hp. split; [|done].
    rewrite Hkw. simpl. by rewrite Hk.
Qed.

Lemma u_search_word_from_spec prev s :
  Unicode.search_word_from is_word prev kw s = true ↔
  ∃ pre post, s = pre ++ kw ++ post ∧
    Unicode.is_word_at is_word (Unicode.last_char prev pre) = false ∧
    Unicode.is_word_at is_word (Unicode.head_char post) = false.
Proof.
  destruct u_kw_nonempty as (k & kw' & Hkw & Hk).
  revert prev. induction s as [|c s IH]; intros prev.
  - simpl. rewrite orb_false_r, u_match_word_here_spec. split.
    + intros [Hp (post & Hs & Hpost)]. by exists [], post.
    + intros (pre & post & Hs & Hp & Hpost).
      destruct pre as [|d pre]; [|done]. eauto.
  - simpl. rewrite orb_true_iff, u_match_word_here_spec, IH. split.
    + intros [[Hp (post & Hs & Hpost)] | (pre & post & Hs & Hp & Hpost)].
      * by exists [], post.
      * exists (c :: pre), post. rewrite Hs. done.
    + intros (pre & post & Hs & Hp & Hpost).
      destruct pre as [|d pre].
      * left. eauto.
      * right. injection Hs as -> Hs. exists pre, post. done.
Qed.

Lemma u_search_word_spec s :
  Unicode.search_word is_word kw s = true ↔ Unicode.occurs_as_whole_word is_word kw s.
Proof. apply u_search_word_from_spec. Qed.

End UnicodeWordSearch.

(** *** ASCII text, as code points *)

Lemma codes_String c s : Unicode.codes (String c s) = N_of_ascii c :: Unicode.codes s.
Proof. done. Qed.

Lemma N_of_ascii_eqb a b : (N_of_ascii a =? N_of_ascii b)%N = Ascii.eqb a b.
Proof.
  destruct (Ascii.eqb_spec a b) as [->|Hne]; [apply N.eqb_refl|].
  apply N.eqb_neq. intros H. apply Hne.
  by rewrite <- (ascii_N_embedding a), <- (ascii_N_embedding b), H.
Qed.

Lemma codes_strip_prefix kw s :
  Unicode.strip_prefix (Unicode.codes kw) (Unicode.codes s) =
  Unicode.codes <$> Py.strip_prefix kw s.
Proof.
  revert s. induction kw as [|k kw IH]; intros s; [done|].
  destruct s as [|c s]; [done|].
  rewrite !codes_String. simpl. rewrite N_of_ascii_eqb.
  destruct (Ascii.eqb k c); [apply IH|done].
Qed.

Lemma codes_head_char s :
  Unicode.head_char (Unicode.codes s) = N_of_ascii <$> Py.head_char s.
Proof. by destruct s. Qed.

Lemma codes_last_char prev s :
  Unicode.last_char (N_of_ascii <$> prev) (Unicode.codes s) =
  N_of_ascii <$> Py.last_char prev s.
Proof.
  revert prev. induction s as [|c s IH]; intros prev; [done|].
  rewrite codes_String. simpl. apply (IH (Some c)).
Qed.

Lemma ascii_at_head s : Unicode.ascii_text s = true → Unicode.ascii_at (Py.head_char s) = true.
Proof. destruct s as [|c s]; [done|]. simpl. by intros [? _]%andb_true_iff. Qed.

Lemma ascii_at_last prev s :
  Unicode.ascii_at prev = true → Unicode.ascii_text s = true → Unicode.ascii_at (Py.last_char prev s) = true.
Proof.
  revert prev. induction s as [|c s IH]; intros prev Hp; [done|].
  simpl. intros [Hc Hs]%andb_true_iff. by apply IH.
Qed.

Section AsciiText.

Variable is_word : N → bool.
Variable upper : Unicode.str → Unicode.str.
Hypothesis python : Unicode.python_text is_word upper.

Lemma codes_is_word_at c :
  Unicode.ascii_at c = true → Unicode.is_word_at is_word (N_of_ascii <$> c) = Py.is_word_at c.
Proof. destruct c as [c|]; [|done]. simpl. apply (Unicode.word_ascii _ _ python). Qed.

Lemma codes_match_word_here prev kw s :
  Unicode.ascii_at prev = true → Unicode.ascii_text kw = true → Unicode.ascii_text s = true →
  Unicode.match_word_here is_word (N_of_ascii <$> prev) (Unicode.codes kw) (Unicode.codes s) =
  Py.match_word_here prev kw s.
Proof.
  intros Hp Hkw Hs. unfold Unicode.match_word_here, Py.match_word_here,
    Unicode.word_boundary, Py.word_boundary.
  rewrite codes_strip_prefix, codes_head_char, codes_last_char.
  rewrite !codes_is_word_at by auto using ascii_at_head, ascii_at_last.
  destruct (Py.strip_prefix kw s) as [rest|] eqn:Hrest; [|done]. simpl.
  rewrite codes_head_char, codes_is_word_at; [done|].
  apply ascii_at_head. apply strip_prefix_Some in Hrest. subst s.
  unfold Unicode.ascii_text in Hs. rewrite all_chars_app in Hs.
  by apply andb_true_iff in Hs as [_ ?].
Qed.

Lemma codes_search_word_from prev kw s :
  Unicode.ascii_at prev = true → Unicode.ascii_text kw = true → Unicode.ascii_text s = true →
  Unicode.search_word_from is_word (N_of_ascii <$> prev) (Unicode.codes kw) (Unicode.codes s) =
  Py.search_word_from prev kw s.
Proof.
  intros Hp Hkw. revert prev Hp. induction s as [|c s IH]; intros prev Hp Hs.
  - change (Unicode.codes "") with (@nil N). simpl.
    change (@nil N) with (Unicode.codes ""). by rewrite codes_match_word_here.
  - rewrite codes_String. simpl. rewrite <- codes_String.
    rewrite codes_match_word_here by done. f_equal.
    simpl in Hs. apply andb_true_iff in Hs as [Hc Hs].
    by apply (IH (Some c)).
Qed.

Lemma ascii_text_upper s : Unicode.ascii_text s = true → Unicode.ascii_text (Py.upper s) = true.
Proof.
  unfold Unicode.ascii_text, Py.upper. rewrite all_chars_map.
  apply all_chars_impl. intros c. by destruct c as [[] [] [] [] [] [] [] []].
Qed.

Lemma ascii_text_lower s : Unicode.ascii_text s = true → Unicode.ascii_text (Py.lower s) = true.
Proof.
  unfold Unicode.ascii_text, Py.lower. rewrite all_chars_map.
  apply all_chars_impl. intros c. by destruct c as [[] [] [] [] [] [] [] []].
Qed.

Lemma unsafe_keywords_ascii kw : kw ∈ unsafe_keywords → Unicode.ascii_text kw = true.
Proof.
  unfold unsafe_keywords. rewrite !elem_of_cons, elem_of_nil.
  intros H. repeat destruct H as [-> | H]; try reflexivity. done.
Qed.

Lemma find_ext_in {A} (f g : A → bool) (l : list A) :
  (∀ x, x ∈ l → f x = g x) → List.find f l = List.find g l.
Proof.
  induction l as [|x l IH]; intros H; [done|]. simpl.
  rewrite (H x) by left. destruct (g x); [done|]. apply IH. intros y Hy. apply H. by right.
Qed.

(** On ASCII text the gate is the function [check_unsafe_query] of the
    validator's model. *)
Lemma codes_check_unsafe_query s :
  Unicode.ascii_text s = true →
  Unicode.check_unsafe_query is_word upper (Unicode.codes s) = check_unsafe_query s.
Proof.
  intros Hs. unfold Unicode.check_unsafe_query, check_unsafe_query.
  rewrite (Unicode.upper_ascii _ _ python) by done.
  rewrite (find_ext_in _ (λ keyword, Py.search_word keyword (Py.upper s))); [done|].
  intros kw Hkw. apply (codes_search_word_from None); [done| |].
  - by apply unsafe_keywords_ascii.
  - by apply ascii_text_upper.
Qed.

Lemma u_unsafe_keywords_delimited kw :
  kw ∈ unsafe_keywords → Unicode.word_delimited is_word (Unicode.codes kw).
Proof.
  intros Hin. pose proof (unsafe_keywords_ascii kw Hin) as Ha.
  destruct (unsafe_keywords_delimited kw Hin) as [Hh Hl].
  split.
  - rewrite codes_head_char, codes_is_word_at; [done|]. by apply ascii_at_head.
  - rewrite (codes_last_char None), codes_is_word_at; [done|]. by apply ascii_at_last.
Qed.

Lemma u_search_unsafe_keyword kw s :
  kw ∈ unsafe_keywords →
  Unicode.search_word is_word (Unicode.codes kw) s = true ↔
  Unicode.occurs_as_whole_word is_word (Unicode.codes kw) s.
Proof. intros Hin. by apply u_search_word_spec, u_unsafe_keywords_delimited. Qed.

End AsciiText.

Lemma app_inv_tail_str a b t : a +:+ t = b +:+ t → a = b.
Proof.
  revert b. induction a as [|c a IH]; intros [|d b] H; [done| | |].
  - apply (f_equal String.length) in H. rewrite app_empty_l, length_app_str in H.
    simpl in H. lia.
  - apply (f_equal String.length) in H. rewrite app_empty_l, length_app_str in H.
    simpl in H. lia.
  - rewrite !app_String in H. injection H as -> H. f_equal. by apply IH.
Qed.

Lemma unsafe_message_inj kw kw' : unsafe_message kw = unsafe_message kw' → kw = kw'.
Proof.
  unfold unsafe_message. rewrite !app_String. intros H.
  injection H as H. rewrite !app_empty_l in H. by apply app_inv_tail_str in H.
Qed.

Lemma upper_upper_char c : Py.upper_char (Py.upper_char c) = Py.upper_char c.
Proof. by destruct c as [[] [] [] [] [] [] [] []]. Qed.

Lemma upper_upper s : Py.upper (Py.upper s) = Py.upper s.
Proof.
  unfold Py.upper. induction s as [|c s IH]; simpl; [done|].
  by rewrite upper_upper_char, IH.
Qed.

Lemma sample_python_text : Unicode.python_text Unicode.sample_word Unicode.sample_upper.
Proof.
  split.
  - intros c. by destruct c as [[] [] [] [] [] [] [] []].
  - intros s Hs. induction s as [|c s IH]; [done|].
    simpl in Hs. apply andb_true_iff in Hs as [Hc Hs].
    change (Py.upper (String c s)) with (String (Py.upper_char c) (Py.upper s)).
    rewrite !codes_String.
    change (Unicode.sample_upper (N_of_ascii c :: Unicode.codes s))
      with (Unicode.sample_upper_char (N_of_ascii c) :: Unicode.sample_upper (Unicode.codes s)).
    rewrite IH by done. f_equal. revert Hc.
    by destruct c as [[] [] [] [] [] [] [] []].
Qed.

(** C4: for every text, [check_unsafe_query] rejects exactly when a
    keyword of the deny-list occurs as a whole word in the uppercased
    text, and it reports the first keyword in deny-list order that
    occurs so, wherever the keywords stand in the text.  The text is a
    sequence of code points; [str.upper] and the word class are
    Python's, of which only their values on ASCII text are used.  On
    ASCII text the gate is the function of the validator's model; there
    the case of the letters does not matter, a keyword inside a longer
    identifier ([updated_on]) does not match, and [DROP] is reported
    before an [UPDATE] that stands earlier in the text. *)
Theorem check_unsafe_query_whole_word
    (is_word : N → bool) (upper : Unicode.str → Unicode.str) (query : Unicode.str) :
  Unicode.python_text is_word upper →
  (fst (Unicode.check_unsafe_query is_word upper query) = false ↔
     ∃ kw, kw ∈ unsafe_keywords ∧
       Unicode.occurs_as_whole_word is_word (Unicode.codes kw) (upper query)) ∧
  (∀ kw, Unicode.first_listed_occurrence is_word kw (upper query) →
     Unicode.check_unsafe_query is_word upper query = (false, unsafe_message kw)) ∧
  (∀ kw, Unicode.check_unsafe_query is_word upper query = (false, unsafe_message kw) →
     Unicode.first_listed_occurrence is_word kw (upper query)) ∧
  (∀ s, Unicode.ascii_text s = true →
     Unicode.check_unsafe_query is_word upper (Unicode.codes s) = check_unsafe_query s ∧
     check_unsafe_query (Py.lower s) = check_unsafe_query s ∧
     check_unsafe_query (Py.upper s) = check_unsafe_query s) ∧
  Unicode.check_unsafe_query is_word upper (Unicode.codes "select updated_on from users")
    = (true, "Safe query") ∧
  Unicode.check_unsafe_query is_word upper (Unicode.codes "update t set a = 1; Drop table t")
    = (false, unsafe_message "DROP").
Proof.
  intros Hpy.
  split; [|split; [|split; [|split; [|split]]]].
  - unfold Unicode.check_unsafe_query.
    destruct (List.find _ unsafe_keywords) as [kw|] eqn:Hfind; simpl.
    + split; [intros _|done].
      apply List.find_some in Hfind as [Hin Hs].
      apply list_elem_of_In in Hin.
      exists kw. split; [done|]. by apply (u_search_unsafe_keyword is_word upper Hpy).
    + split; [done|]. intros (kw & Hin & Hocc).
      apply (u_search_unsafe_keyword is_word upper Hpy _ _ Hin) in Hocc.
      apply list_elem_of_In in Hin.
      by rewrite (List.find_none _ _ Hfind kw Hin) in Hocc.
  - intros kw (before & after & Hl & Hocc & Hfirst).
    unfold Unicode.check_unsafe_query. rewrite Hl.
    assert (kw ∈ unsafe_keywords) as Hin.
    { rewrite Hl, elem_of_app, elem_of_cons. auto. }
    rewrite (find_first _ before after kw); [done| |].
    + by apply (u_search_unsafe_keyword is_word upper Hpy).
    + intros k Hk.
      destruct (Unicode.search_word is_word (Unicode.codes k) (upper query)) eqn:Hs; [|done].
      exfalso. apply (Hfirst k Hk).
      apply (u_search_unsafe_keyword is_word upper Hpy); [|done].
      rewrite Hl, elem_of_app. auto.
  - intros kw. unfold Unicode.check_unsafe_query.
    destruct (List.find _ unsafe_keywords) as [kw'|] eqn:Hfind; [|done].
    intros Heq.
    apply find_split in Hfind as (before & after & Hl & Hs & Hbefore).
    assert (kw' ∈ unsafe_keywords) as Hin'.
    { rewrite Hl, elem_of_app, elem_of_cons. auto. }
    assert (kw' = kw) as ->.
    { apply pair_equal_spec in Heq as [_ Heq]. by apply unsafe_message_inj. }
    exists before, after. split; [done|]. split.
    + by apply (u_search_unsafe_keyword is_word upper Hpy).
    + intros k Hk Hocc.
      apply (u_search_unsafe_keyword is_word upper Hpy) in Hocc.
      * by rewrite (Hbefore k Hk) in Hocc.
      * rewrite Hl, elem_of_app. auto.
  - intros s Hs. split; [by apply codes_check_unsafe_query|].
    unfold check_unsafe_query. rewrite upper_lower.
    split; [done|]. by rewrite upper_upper.
  - by rewrite (codes_check_unsafe_query is_word upper Hpy).
  - by rewrite (codes_check_unsafe_query is_word upper Hpy).
Qed.

Lemma check_unsafe_query_whole_word_witness :
  fst (Unicode.check_unsafe_query Unicode.sample_word Unicode.sample_upper
         (Unicode.codes "in" ++ [383%N] ++ Unicode.codes "ert into t values (1)")) = false ↔
  ∃ kw, kw ∈ unsafe_keywords ∧
    Unicode.occurs_as_whole_word Unicode.sample_word (Unicode.codes kw)
      (Unicode.sample_upper
         (Unicode.codes "in" ++ [383%N] ++ Unicode.codes "ert into t values (1)")).
Proof.
  exact (proj1 (check_unsafe_query_whole_word Unicode.sample_word Unicode.sample_upper
                  (Unicode.codes "in" ++ [383%N] ++ Unicode.codes "ert into t values (1)")
                  sample_python_text)).
Defined.

(** Beyond ASCII the gate follows Unicode: a long s is uppercased to
    [S], which completes the keyword [INSERT], and a letter with an
    accent in front of [drop] is a word character, so that [DROP] is
    not a whole word there. *)
Lemma check_unsafe_query_beyond_ascii :
  Unicode.check_unsafe_query Unicode.sample_word Unicode.sample_upper
    (Unicode.codes "in" ++ [383%N] ++ Unicode.codes "ert into t values (1)")
    = (false, unsafe_message "INSERT") ∧
  Unicode.check_unsafe_query Unicode.sample_word Unicode.sample_upper
    ([233%N] ++ Unicode.codes "drop table users")
    = (true, "Safe query").
Proof. split; vm_compute; reflexivity. Qed.
